(** * A shallow embedding of [scrobbler.py] (Last.fm batch scrobbler)

    The program is a single Python module.  Python integers are unbounded,
    so they are [Z]; a Python [str] is represented by its UTF-8 encoding (a
    [string], i.e. a list of 8-bit characters), so that [str.encode('utf-8')]
    is the identity on the underlying bytes and the code-point order used by
    [sorted] is the byte-wise lexicographic order.  A Python [dict] keeps its
    insertion order, so it is an association list with distinct keys.
    Exceptions, the scrobbler object, the dict objects allocated by the
    program, the network, the console, the clock and the credentials file
    are threaded through a state-and-exception monad. *)

From Stdlib Require Import ZArith Lia.
From Stdlib Require Import Strings.Byte Strings.Ascii Strings.String.
From Stdlib Require Import Floats.SpecFloat.
From stdpp Require Import base option list strings pretty sorting.

Local Open Scope Z_scope.

(** ** Python values *)

#[local] Set Warnings "-register-all".

(** The values the program handles: what [json.load] / [response.json()]
    can return, and what is stored in parameter dicts. *)
Inductive value : Type :=
  | VNone
  | VBool (b : bool)
  | VInt (n : Z)
  | VFloat (f : spec_float)
  | VStr (s : string)
  | VList (l : list value)
  | VDict (d : list (string * value)).

(** Exceptions; every one of them is a subclass of Python's [Exception]. *)
Inductive exn : Type :=
  | HTTPError (status : Z)      (* requests.exceptions.HTTPError *)
  | ConnectionError             (* requests.get / requests.post failed *)
  | JSONDecodeError             (* json.load / response.json() *)
  | OSError                     (* open() *)
  | EOFError                    (* input() at end of input *)
  | AttributeError
  | TypeError
  | KeyError (k : string)
  | ValueError
  | OverflowError
  | PlainException (msg : string).   (* raise Exception(msg) *)

Inductive result (A : Type) : Type :=
  | Ok (a : A)
  | Raise (e : exn).
Arguments Ok {A} a.
Arguments Raise {A} e.

(** ** Dicts with string keys, in insertion order *)

Abbreviation dict V := (list (string * V)) (only parsing).

Fixpoint dict_get {V} (d : dict V) (k : string) : option V :=
  match d with
  | [] => None
  | (k', v) :: d' => if decide (k' = k) then Some v else dict_get d' k
  end.

(** [d[k] = v]: an existing key keeps its position, a new key goes last. *)
Fixpoint dict_set {V} (d : dict V) (k : string) (v : V) : dict V :=
  match d with
  | [] => [(k, v)]
  | (k', v') :: d' =>
      if decide (k' = k) then (k', v) :: d' else (k', v') :: dict_set d' k v
  end.

(** [d.pop(k, None)], the dict that is left. *)
Fixpoint dict_pop {V} (d : dict V) (k : string) : dict V :=
  match d with
  | [] => []
  | (k', v') :: d' =>
      if decide (k' = k) then d' else (k', v') :: dict_pop d' k
  end.

(** [d.keys()], in insertion order. *)
Definition dict_keys {V} (d : dict V) : list string := d.*1.

(** The invariant of a Python dict: no key occurs twice. *)
Definition dict_wf {V} (d : dict V) : Prop := NoDup (dict_keys d).

(** ** Builtins on values *)

(** [bool(v)] *)
Definition py_truthy (v : value) : bool :=
  match v with
  | VNone => false
  | VBool b => b
  | VInt n => negb (n =? 0)
  | VFloat f => match f with S754_zero _ => false | _ => true end
  | VStr s => negb (bool_decide (s = EmptyString))
  | VList l => match l with [] => false | _ => true end
  | VDict d => match d with [] => false | _ => true end
  end.

Fixpoint is_substring (needle hay : string) : bool :=
  if String.prefix needle hay then true
  else match hay with
       | EmptyString => false
       | String _ hay' => is_substring needle hay'
       end.

Definition is_str (k : string) (v : value) : bool :=
  match v with VStr s => bool_decide (s = k) | _ => false end.

(** [k in data] for a string [k] *)
Definition py_contains (k : string) (data : value) : result bool :=
  match data with
  | VDict d => Ok (bool_decide (is_Some (dict_get d k)))
  | VList l => Ok (existsb (is_str k) l)
  | VStr s => Ok (is_substring k s)
  | _ => Raise TypeError
  end.

(** [data[k]] for a string [k] *)
Definition py_getitem (data : value) (k : string) : result value :=
  match data with
  | VDict d => match dict_get d k with Some v => Ok v | None => Raise (KeyError k) end
  | _ => Raise TypeError
  end.

(** [obj.get(k, dflt)]: only dicts have a [get] method. *)
Definition py_get (obj : value) (k : string) (dflt : value) : result value :=
  match obj with
  | VDict d => Ok (default dflt (dict_get d k))
  | _ => Raise AttributeError
  end.

(** [int(f)] for a float: truncation towards zero; [nan] and the
    infinities raise. *)
Definition int_of_float (f : spec_float) : result Z :=
  match f with
  | S754_zero _ => Ok 0
  | S754_infinity _ => Raise OverflowError
  | S754_nan => Raise ValueError
  | S754_finite sign m e =>
      let mag := if 0 <=? e then Z.pos m * 2 ^ e else Z.pos m / 2 ^ (- e) in
      Ok (if sign then - mag else mag)
  end.

(** The builtins of the Python runtime that are used by the program and
    left abstract: parsing an integer literal, [str.lower], and the textual
    form of floats and containers. *)
Class Runtime : Type := {
  int_of_str : string -> result Z;        (* int(s) *)
  str_lower : string -> string;           (* s.lower() *)
  repr_value : value -> string;           (* str(v) for floats, lists, dicts *)
}.

Section Builtins.
Context {rt : Runtime}.

(** [int(v)] *)
Definition py_int (v : value) : result Z :=
  match v with
  | VInt n => Ok n
  | VBool b => Ok (if b then 1 else 0)
  | VFloat f => int_of_float f
  | VStr s => int_of_str s
  | VNone | VList _ | VDict _ => Raise TypeError
  end.

(** [str(v)], which is also what an f-string field [{v}] produces. *)
Definition py_str (v : value) : string :=
  match v with
  | VStr s => s
  | VInt n => pretty n
  | VNone => "None"
  | VBool b => if b then "True" else "False"
  | VFloat _ | VList _ | VDict _ => repr_value v
  end.
End Builtins.

(** ** Sorting

    [sorted] and [list.sort] are stable sorts; they are modelled by stdpp's
    merge sort.  On integers and on strings two elements that compare equal
    are identical, so every sorting algorithm returns the same list. *)

Definition sorted_str (l : list string) : list string := merge_sort String.le l.
Definition sort_int (l : list Z) : list Z := merge_sort Z.le l.

(** [range(start, stop, step)] for a positive [step] *)
Definition py_range (start stop step : Z) : list Z :=
  (fun k => start + Z.of_nat k * step) <$> seq 0 (Z.to_nat ((stop - start + step - 1) / step)).

(** [l[i:j]], with Python's treatment of negative and overlong indices *)
Definition slice_index (len i : Z) : Z :=
  if i <? 0 then Z.max (len + i) 0 else Z.min i len.

Definition py_slice {A} (l : list A) (i j : Z) : list A :=
  let len := Z.of_nat (length l) in
  let lo := slice_index len i in
  let hi := slice_index len j in
  take (Z.to_nat (hi - lo)) (drop (Z.to_nat lo) l).

(** ** MD5 (RFC 1321), as computed by [hashlib.md5]

    Bytes are [byte]s, 32-bit words are integers in [0, 2^32) with the
    wrap-around written out. *)

Definition w32 (x : Z) : Z := x mod 2 ^ 32.
Definition not32 (x : Z) : Z := Z.lxor x 0xffffffff.
Definition rotl32 (x c : Z) : Z :=
  w32 (Z.lor (Z.shiftl x c) (Z.shiftr x (32 - c))).

Definition md5_shifts : list Z :=
  [7; 12; 17; 22; 7; 12; 17; 22; 7; 12; 17; 22; 7; 12; 17; 22;
   5; 9; 14; 20; 5; 9; 14; 20; 5; 9; 14; 20; 5; 9; 14; 20;
   4; 11; 16; 23; 4; 11; 16; 23; 4; 11; 16; 23; 4; 11; 16; 23;
   6; 10; 15; 21; 6; 10; 15; 21; 6; 10; 15; 21; 6; 10; 15; 21].

(** [floor(2^32 * abs(sin(i + 1)))] for [i] in [0..63] *)
Definition md5_sines : list Z :=
  [
   0xd76aa478; 0xe8c7b756; 0x242070db; 0xc1bdceee;
   0xf57c0faf; 0x4787c62a; 0xa8304613; 0xfd469501;
   0x698098d8; 0x8b44f7af; 0xffff5bb1; 0x895cd7be;
   0x6b901122; 0xfd987193; 0xa679438e; 0x49b40821;
   0xf61e2562; 0xc040b340; 0x265e5a51; 0xe9b6c7aa;
   0xd62f105d; 0x02441453; 0xd8a1e681; 0xe7d3fbc8;
   0x21e1cde6; 0xc33707d6; 0xf4d50d87; 0x455a14ed;
   0xa9e3e905; 0xfcefa3f8; 0x676f02d9; 0x8d2a4c8a;
   0xfffa3942; 0x8771f681; 0x6d9d6122; 0xfde5380c;
   0xa4beea44; 0x4bdecfa9; 0xf6bb4b60; 0xbebfbc70;
   0x289b7ec6; 0xeaa127fa; 0xd4ef3085; 0x04881d05;
   0xd9d4d039; 0xe6db99e5; 0x1fa27cf8; 0xc4ac5665;
   0xf4292244; 0x432aff97; 0xab9423a7; 0xfc93a039;
   0x655b59c3; 0x8f0ccc92; 0xffeff47d; 0x85845dd1;
   0x6fa87e4f; 0xfe2ce6e0; 0xa3014314; 0x4e0811a1;
   0xf7537e82; 0xbd3af235; 0x2ad7d2bb; 0xeb86d391].

Definition byte_Z (b : Byte.byte) : Z := Z.of_N (Byte.to_N b).
Definition Z_byte (x : Z) : Byte.byte :=
  default Byte.x00 (Byte.of_N (Z.to_N (x mod 256))).

(** little-endian encoding of [x] on [n] bytes *)
Fixpoint le_bytes (n : nat) (x : Z) : list Byte.byte :=
  match n with
  | O => []
  | S n' => Z_byte x :: le_bytes n' (x / 256)
  end.

Fixpoint le_word (bs : list Byte.byte) : Z :=
  match bs with
  | [] => 0
  | b :: bs' => byte_Z b + 256 * le_word bs'
  end.

(** the message followed by [0x80], zeros up to 56 mod 64, and the bit
    length on 64 bits *)
Definition md5_pad (msg : list Byte.byte) : list Byte.byte :=
  let len := Z.of_nat (length msg) in
  msg ++ [Byte.x80] ++ replicate (Z.to_nat ((55 - len) mod 64)) Byte.x00
      ++ le_bytes 8 ((8 * len) mod 2 ^ 64).

(** consecutive groups of [n] elements ([n > 0]); [fuel] bounds their number *)
Fixpoint groups {A} (fuel n : nat) (l : list A) : list (list A) :=
  match fuel, l with
  | O, _ | _, [] => []
  | S fuel', _ => take n l :: groups fuel' n (drop n l)
  end.

Definition md5_state : Type := Z * Z * Z * Z.

Definition md5_init : md5_state :=
  (0x67452301, 0xefcdab89, 0x98badcfe, 0x10325476).

Definition md5_round (m : list Z) (st : md5_state) (i : nat) : md5_state :=
  let '(a, b, c, d) := st in
  let iz := Z.of_nat i in
  let '(f, g) :=
    if iz <? 16 then (Z.lor (Z.land b c) (Z.land (not32 b) d), iz)
    else if iz <? 32 then
      (Z.lor (Z.land d b) (Z.land (not32 d) c), (5 * iz + 1) mod 16)
    else if iz <? 48 then (Z.lxor (Z.lxor b c) d, (3 * iz + 5) mod 16)
    else (Z.lxor c (Z.lor b (not32 d)), (7 * iz) mod 16) in
  let f' := w32 (f + a + nth i md5_sines 0 + nth (Z.to_nat g) m 0) in
  (d, w32 (b + rotl32 f' (nth i md5_shifts 0)), b, c).

Definition md5_block (st : md5_state) (block : list Byte.byte) : md5_state :=
  let m := le_word <$> groups 16 4 block in
  let '(a0, b0, c0, d0) := st in
  let '(a, b, c, d) := foldl (md5_round m) st (seq 0 64) in
  (w32 (a0 + a), w32 (b0 + b), w32 (c0 + c), w32 (d0 + d)).

(** [hashlib.md5(msg).digest()] *)
Definition md5 (msg : list Byte.byte) : list Byte.byte :=
  let padded := md5_pad msg in
  let '(a, b, c, d) := foldl md5_block md5_init (groups (length padded) 64 padded) in
  le_bytes 4 a ++ le_bytes 4 b ++ le_bytes 4 c ++ le_bytes 4 d.

Definition hex_digit (x : Z) : ascii :=
  nth (Z.to_nat x) (list_ascii_of_string "0123456789abcdef") "0"%char.

Definition hex_byte (b : Byte.byte) : list ascii :=
  [hex_digit (byte_Z b / 16); hex_digit (byte_Z b mod 16)].

(** [.hexdigest()]: two lowercase hexadecimal digits per byte *)
Definition hexlify (bs : list Byte.byte) : string :=
  string_of_list_ascii (bs ≫= hex_byte).

(** [s.encode('utf-8')] on the representation of [s] *)
Definition encode_utf8 (s : string) : list Byte.byte := list_byte_of_string s.

Definition md5_hexdigest (s : string) : string := hexlify (md5 (encode_utf8 s)).

(** ** The world the program runs in *)

(** An HTTP response: its status, and the JSON value its body parses to,
    if it does. *)
Record response : Type := { status_code : Z; body : option value }.

Inductive http_method : Type := GET | POST.

Inductive log_record : Type :=
  | ErrorLoadingCredentials (e : exn)
  | ErrorSavingCredentials (e : exn)
  | InfoScrobbled (success_count count : Z)
  | ErrorBatchFailed (e : exn).

Inductive event : Type :=
  | EvPrint (s : string)
  | EvInput (prompt : string)
  | EvBrowser (url : string)
  | EvSleep (secs : Z)
  | EvLog (r : log_record)
  | EvRequest (m : http_method) (url : string) (params : dict value).

(** Addresses of dict objects. *)
Abbreviation loc := nat (only parsing).

Record state : Type := {
  session_key : value;                  (* self.session_key *)
  heap : list (dict value);             (* the dict objects, by address *)
  cred_file : option (result value);    (* credentials.json: absent, or what
                                           open and json.load give on it *)
  cred_writable : bool;                 (* whether open(.., 'w') succeeds *)
  net : list (result response);         (* outcomes of the coming requests *)
  stdin : list string;                  (* the coming lines of input *)
  clock : Z;                            (* int(time.time()) *)
  trace : list event;                   (* what the program did, oldest first *)
}.

Definition set_session_key (v : value) (s : state) : state :=
  {| session_key := v; heap := heap s; cred_file := cred_file s;
     cred_writable := cred_writable s; net := net s; stdin := stdin s;
     clock := clock s; trace := trace s |}.
Definition set_heap (h : list (dict value)) (s : state) : state :=
  {| session_key := session_key s; heap := h; cred_file := cred_file s;
     cred_writable := cred_writable s; net := net s; stdin := stdin s;
     clock := clock s; trace := trace s |}.
Definition set_cred_file (f : option (result value)) (s : state) : state :=
  {| session_key := session_key s; heap := heap s; cred_file := f;
     cred_writable := cred_writable s; net := net s; stdin := stdin s;
     clock := clock s; trace := trace s |}.
Definition set_net (n : list (result response)) (s : state) : state :=
  {| session_key := session_key s; heap := heap s; cred_file := cred_file s;
     cred_writable := cred_writable s; net := n; stdin := stdin s;
     clock := clock s; trace := trace s |}.
Definition set_stdin (i : list string) (s : state) : state :=
  {| session_key := session_key s; heap := heap s; cred_file := cred_file s;
     cred_writable := cred_writable s; net := net s; stdin := i;
     clock := clock s; trace := trace s |}.
Definition set_clock (c : Z) (s : state) : state :=
  {| session_key := session_key s; heap := heap s; cred_file := cred_file s;
     cred_writable := cred_writable s; net := net s; stdin := stdin s;
     clock := c; trace := trace s |}.
Definition set_trace (t : list event) (s : state) : state :=
  {| session_key := session_key s; heap := heap s; cred_file := cred_file s;
     cred_writable := cred_writable s; net := net s; stdin := stdin s;
     clock := clock s; trace := t |}.

(** ** The monad: state and exceptions

    A raised exception keeps the state reached so far, as in Python. *)

Definition M (A : Type) : Type := state -> result A * state.

#[global] Instance M_ret : MRet M := fun A a s => (Ok a, s).
#[global] Instance M_bind : MBind M := fun A B f m s =>
  match m s with
  | (Ok a, s') => f a s'
  | (Raise e, s') => (Raise e, s')
  end.

Definition raise {A} (e : exn) : M A := fun s => (Raise e, s).

(** the outcome of a builtin, as a computation *)
Definition lift {A} (r : result A) : M A := fun s => (r, s).

(** [try: m except Exception as e: h e] *)
Definition try_except {A} (m : M A) (h : exn -> M A) : M A := fun s =>
  match m s with
  | (Ok a, s') => (Ok a, s')
  | (Raise e, s') => h e s'
  end.

Definition gets {A} (f : state -> A) : M A := fun s => (Ok (f s), s).
Definition modify (f : state -> state) : M unit := fun s => (Ok tt, f s).

(** [for x in l: acc = body x acc], where [acc] stands for the local
    variables the body assigns *)
Fixpoint for_fold {A B} (l : list A) (acc : B) (body : A -> B -> M B) : M B :=
  match l with
  | [] => mret acc
  | x :: l' => acc' ← body x acc; for_fold l' acc' body
  end.

(** *** Console, clock, log *)

Definition emit (e : event) : M unit :=
  modify (fun s => set_trace (trace s ++ [e]) s).

Definition print (msg : string) : M unit := emit (EvPrint msg).
Definition logger_error (r : log_record) : M unit := emit (EvLog r).
Definition logger_info (r : log_record) : M unit := emit (EvLog r).
Definition webbrowser_open (url : string) : M unit := emit (EvBrowser url).

(** [input(prompt)] *)
Definition input (prompt : string) : M string :=
  emit (EvInput prompt);;
  i ← gets stdin;
  match i with
  | [] => raise EOFError
  | line :: rest => modify (set_stdin rest);; mret line
  end.

(** [int(time.time())] *)
Definition time_time : M Z := gets clock.

(** [time.sleep(secs)] *)
Definition time_sleep (secs : Z) : M unit :=
  emit (EvSleep secs);;
  modify (fun s => set_clock (clock s + secs) s).

(** *** Dict objects *)

(** a dict display [{...}] or [d.copy()]: a new object *)
Definition dict_new (d : dict value) : M loc := fun s =>
  (Ok (length (heap s)), set_heap (heap s ++ [d]) s).

Definition deref (l : loc) : M (dict value) :=
  gets (fun s => default [] (heap s !! l)).

Definition obj_copy (l : loc) : M loc := d ← deref l; dict_new d.

(** [l[k] = v] *)
Definition obj_setitem (l : loc) (k : string) (v : value) : M unit :=
  d ← deref l;
  modify (fun s => set_heap (<[l := dict_set d k v]> (heap s)) s).

(** [l.pop(k, None)] *)
Definition obj_pop (l : loc) (k : string) : M unit :=
  d ← deref l;
  modify (fun s => set_heap (<[l := dict_pop d k]> (heap s)) s).

(** [l.keys()] *)
Definition obj_keys (l : loc) : M (list string) :=
  d ← deref l; mret (dict_keys d).

(** [l[k]] *)
Definition obj_getitem (l : loc) (k : string) : M value :=
  d ← deref l;
  match dict_get d k with
  | Some v => mret v
  | None => raise (KeyError k)
  end.

(** *** Network *)

(** [requests.get(url, params=p)] and [requests.post(url, data=p)]: the
    request is sent with the current content of [p]; the outcome is the
    next one the network has in store, a connection error when there is
    none. *)
Definition requests_send (m : http_method) (url : string) (p : loc) : M response :=
  d ← deref p;
  emit (EvRequest m url d);;
  n ← gets net;
  match n with
  | [] => raise ConnectionError
  | r :: rest => modify (set_net rest);; lift r
  end.

(** [response.raise_for_status()]: [requests] raises [HTTPError] for the
    client errors (4xx) and the server errors (5xx). *)
Definition raise_for_status (r : response) : M unit :=
  if (400 <=? status_code r) && (status_code r <? 600)
  then raise (HTTPError (status_code r))
  else mret tt.

(** ** The program *)

(** Last.fm API settings.  The source leaves the key and the secret blank,
    to be filled in by the user; the development holds for any value. *)
Class Settings : Type := { API_KEY : string; API_SECRET : string }.

Definition source_settings : Settings := {| API_KEY := EmptyString; API_SECRET := EmptyString |}.

Definition API_URL : string := "http://ws.audioscrobbler.com/2.0/".

(** A scrobble event, the dict [{'artist': .., 'track': .., 'timestamp': ..}]
    that [batch_scrobble] builds and [scrobble_tracks] reads. *)
Record scrobble : Type := { artist : string; track : string; timestamp : Z }.

Section Program.
Context {rt : Runtime} {cfg : Settings}.

(** [response.json()] *)
Definition response_json (r : response) : M value :=
  match body r with
  | Some data => mret data
  | None => raise JSONDecodeError
  end.

(** *** Credential store *)

Definition load_session : M value :=
  try_except
    (f ← gets cred_file;
     match f with
     | None => mret VNone                      (* os.path.exists is False *)
     | Some loaded =>
         data ← lift loaded;                   (* open, json.load *)
         present ← lift (py_contains "session_key" data);
         if present : bool then lift (py_getitem data "session_key")
         else mret VNone
     end)
    (fun e => logger_error (ErrorLoadingCredentials e);; mret VNone).

(** [LastFMScrobbler()] *)
Definition init : M unit :=
  k ← load_session; modify (set_session_key k).

Definition save_credentials (key : value) : M unit :=
  try_except
    (w ← gets cred_writable;
     if w : bool
     then modify (set_cred_file (Some (Ok (VDict [("session_key", key)]))))
     else raise OSError)
    (fun e => logger_error (ErrorSavingCredentials e)).

(** *** Signer *)

Definition get_signature (params : loc) : M string :=
  params ← obj_copy params;
  obj_pop params "format";;
  keys ← obj_keys params;
  parts ← mapM (fun k => v ← obj_getitem params k; mret (k +:+ py_str v))
               (sorted_str keys);
  let signature := String.concat EmptyString parts in
  let signature := signature +:+ API_SECRET in
  mret (md5_hexdigest signature).

(** *** Auth flow *)

Definition get_token : M value :=
  params ← dict_new [("method", VStr "auth.getToken"); ("api_key", VStr API_KEY);
                     ("format", VStr "json")];
  response ← requests_send GET API_URL params;
  data ← response_json response;
  present ← lift (py_contains "token" data);
  if present : bool then lift (py_getitem data "token")
  else raise (PlainException "Failed to get authentication token").

Definition authorize_token (token : value) : M unit :=
  let auth_url := "http://www.last.fm/api/auth/?api_key=" +:+ API_KEY
                    +:+ "&token=" +:+ py_str token in
  print "Please authorize this application by visiting this URL:";;
  print auth_url;;
  webbrowser_open auth_url;;
  input "Press Enter after you've authorized the application...";;
  mret tt.

Definition get_session (token : value) : M value :=
  params ← dict_new [("method", VStr "auth.getSession"); ("api_key", VStr API_KEY);
                     ("token", token)];
  sig ← get_signature params;
  obj_setitem params "api_sig" (VStr sig);;
  obj_setitem params "format" (VStr "json");;
  response ← requests_send GET API_URL params;
  data ← response_json response;
  present ← lift (py_contains "session" data);
  if present : bool then
    session ← lift (py_getitem data "session");
    key ← lift (py_getitem session "key");
    save_credentials key;;
    mret key
  else raise (PlainException "Failed to get session key").

Definition ensure_auth : M unit :=
  key ← gets session_key;
  if negb (py_truthy key) then
    token ← get_token;
    authorize_token token;;
    key ← get_session token;
    modify (set_session_key key);;
    print "Successfully authenticated!"
  else mret tt.

(** *** Scrobble submitter *)

Definition scrobble_track (artist title : string) (timestamp : option Z) : M value :=
  ensure_auth;;
  sk ← gets session_key;
  ts ← match timestamp with
       | Some t => if t =? 0 then time_time else mret t
       | None => time_time
       end;
  params ← dict_new [("method", VStr "track.scrobble"); ("api_key", VStr API_KEY);
                     ("sk", sk); ("artist", VStr artist); ("track", VStr title);
                     ("timestamp", VStr (pretty ts))];
  sig ← get_signature params;
  obj_setitem params "api_sig" (VStr sig);;
  obj_setitem params "format" (VStr "json");;
  response ← requests_send POST API_URL params;
  response_json response.

(** [f'{name}[{idx}]'] *)
Definition indexed (name : string) (idx : nat) : string :=
  name +:+ "[" +:+ pretty idx +:+ "]".

(** the body of the loop over [enumerate(scrobbles)] *)
Definition add_scrobble (params : loc) (item : nat * scrobble) (_ : unit) : M unit :=
  let '(idx, scrobble) := item in
  obj_setitem params (indexed "artist" idx) (VStr (artist scrobble));;
  obj_setitem params (indexed "track" idx) (VStr (track scrobble));;
  obj_setitem params (indexed "timestamp" idx) (VStr (pretty (timestamp scrobble))).

Definition scrobble_tracks (scrobbles : list scrobble) : M value :=
  ensure_auth;;
  sk ← gets session_key;
  params ← dict_new [("method", VStr "track.scrobble"); ("api_key", VStr API_KEY);
                     ("sk", sk)];
  for_fold (imap pair scrobbles) tt (add_scrobble params);;
  sig ← get_signature params;
  obj_setitem params "api_sig" (VStr sig);;
  obj_setitem params "format" (VStr "json");;
  response ← requests_send POST API_URL params;
  raise_for_status response;;
  response_json response.

(** *** Batch planner *)

(** the timestamps of the events: 3 minutes apart, going back from the
    base, then sorted *)
Definition batch_timestamps (base_timestamp count : Z) : list Z :=
  let track_duration := 180 in
  sort_int ((fun i => base_timestamp - i * track_duration) <$> py_range 0 count 1).

(** the events of a run; [start_date] is given by the integer part of its
    POSIX timestamp, [int(start_date.timestamp())] *)
Definition batch_events (artist title : string) (count base_timestamp : Z)
    : list scrobble :=
  (fun ts => {| artist := artist; track := title; timestamp := ts |})
    <$> batch_timestamps base_timestamp count.

(** [result.get('scrobbles', {}).get('@attr', {}).get('accepted', 0)],
    then [int(..)] *)
Definition accepted_count (res : value) : result Z :=
  match py_get res "scrobbles" (VDict []) with
  | Raise e => Raise e
  | Ok scrobbles =>
      match py_get scrobbles "@attr" (VDict []) with
      | Raise e => Raise e
      | Ok attr =>
          match py_get attr "accepted" (VInt 0) with
          | Raise e => Raise e
          | Ok accepted => py_int accepted
          end
      end
  end.

(** the body of the loop over the chunks; [i] is the loop variable, the
    running [success_count] is threaded through *)
Definition batch_body (count : Z) (scrobbles : list scrobble) (i success_count : Z)
    : M Z :=
  let batch_size := 50 in
  let batch := py_slice scrobbles i (i + batch_size) in
  success_count ←
    try_except
      (res ← scrobble_tracks batch;
       accepted ← lift (accepted_count res);
       let success_count := success_count + accepted in
       logger_info (InfoScrobbled success_count count);;
       mret success_count)
      (fun e => logger_error (ErrorBatchFailed e);; mret success_count);
  time_sleep 1;;
  mret success_count.

Definition batch_scrobble (artist title : string) (count : Z) (start_date : option Z)
    : M Z :=
  base_timestamp ← match start_date with
                   | Some t => mret t
                   | None => time_time
                   end;
  let scrobbles := batch_events artist title count base_timestamp in
  let batch_size := 50 in
  for_fold (py_range 0 (Z.of_nat (length scrobbles)) batch_size) 0
           (batch_body count scrobbles).

(** *** The prompt loop

    [main] builds the scrobbler and repeats the prompts until ['quit'] or an
    exception; the loop is represented by its body. *)

(** what one round of prompts asks [batch_scrobble] to do *)
Record job : Type :=
  { job_artist : string; job_title : string; job_count : Z;
    job_start_date : option Z }.

(** the prompts of one iteration of [main]'s loop; [None] stands for
    [break].  The start date [datetime.now() - timedelta(days=days_ago)] is
    given by its timestamp, days counting 86400 seconds.  This is the
    arithmetic of a calendar without daylight saving on a whole-second
    clock; the [OverflowError] that [timedelta] and the subtraction raise
    for dates outside the years 1 to 9999 is not represented.  Nothing below
    is stated about the value of the start date. *)
Definition read_job : M (option job) :=
  print (String "010" "=== Last.fm Scrobbler ===");;
  artist ← input "Artist name (or 'quit' to exit): ";
  if bool_decide (str_lower artist = "quit") then mret None
  else
    title ← input "Track title: ";
    count ← input "Number of scrobbles (max 1000): ";
    count ← lift (int_of_str count);
    let count := Z.min 1000 (Z.max 1 count) in
    backdate ← input "Backdate scrobbles? (y/n): ";
    let backdate := bool_decide (str_lower backdate = "y") in
    start_date ←
      (if backdate then
         days_ago ← input "How many days ago to start from? ";
         days_ago ← lift (int_of_str days_ago);
         now ← time_time;
         mret (Some (now - days_ago * 86400))
       else mret None);
    mret (Some {| job_artist := artist; job_title := title; job_count := count;
                  job_start_date := start_date |}).

(** one iteration of [main]'s loop; [false] stands for [break] *)
Definition main_iteration : M bool :=
  j ← read_job;
  match j with
  | None => mret false
  | Some j =>
      print (String "010" "Scrobbling " +:+ pretty (job_count j) +:+ " times...");;
      success_count ← batch_scrobble (job_artist j) (job_title j) (job_count j)
                                     (job_start_date j);
      print (String "010" "Successfully scrobbled " +:+ pretty success_count
               +:+ " times!");;
      mret true
  end.

(** *** Specification-level notions *)

(** The signed material as the specification words it: [key + value] for
    every key except ['format'], in sorted key order, without separators,
    followed by the shared secret. *)
Definition signed_material (m : dict value) : string :=
  String.concat EmptyString
    ((fun k => k +:+ py_str (default VNone (dict_get m k)))
       <$> sorted_str (filter (fun k => k ≠ "format") (dict_keys m)))
  +:+ API_SECRET.

(** What the loop of [batch_scrobble] credits for the outcome of one
    submission: the accepted count of a response it can read, nothing for
    a submission that raised. *)
Definition credited (r : result value) : Z :=
  match r with
  | Ok res => match accepted_count res with Ok n => n | Raise _ => 0 end
  | Raise _ => 0
  end.

Definition sum_credited (outs : list (result value)) : Z :=
  foldr (fun r acc => credited r + acc) 0 outs.

(** the line the loop logs for an outcome, [total] being the count after it *)
Definition chunk_log (count total : Z) (r : result value) : log_record :=
  match r with
  | Ok res =>
      match accepted_count res with
      | Ok _ => InfoScrobbled total count
      | Raise e => ErrorBatchFailed e
      end
  | Raise e => ErrorBatchFailed e
  end.

(** the state after the log line and the one-second pause *)
Definition after_chunk (line : log_record) (s : state) : state :=
  set_clock (clock s + 1) (set_trace (trace s ++ [EvLog line; EvSleep 1]) s).

(** [submitted count batches total s outs s']: starting in [s] with a
    running count [total], every batch of [batches] is passed, in order, to
    [scrobble_tracks], each followed by its log line and the pause; [outs]
    are the outcomes of these calls and [s'] is the final state. *)
Inductive submitted (count : Z)
    : list (list scrobble) -> Z -> state -> list (result value) -> state -> Prop :=
  | submitted_nil total s : submitted count [] total s [] s
  | submitted_cons batch batches total s r s1 outs s' :
      scrobble_tracks batch s = (r, s1) ->
      submitted count batches (total + credited r)
        (after_chunk (chunk_log count (total + credited r) r) s1) outs s' ->
      submitted count (batch :: batches) total s (r :: outs) s'.

End Program.

(** a list cut into consecutive chunks of [n] elements ([n > 0]), the last
    one possibly shorter *)
Definition chunks {A} (n : nat) (l : list A) : list (list A) :=
  groups (length l) n l.

(** [ceil(a / b)] for a positive [b] *)
Definition ceil_div (a b : Z) : Z := - ((- a) / b).

(** the nested field [scrobbles.@attr.accepted] of a response, if it has one *)
Definition nested_accepted (res : value) : option value :=
  match res with
  | VDict d =>
      match dict_get d "scrobbles" with
      | Some (VDict d1) =>
          match dict_get d1 "@attr" with
          | Some (VDict d2) => dict_get d2 "accepted"
          | _ => None
          end
      | _ => None
      end
  | _ => None
  end.

(** The response reports [n] accepted scrobbles, as the specification reads
    a response: its nested field [scrobbles.@attr.accepted] holds the number
    [n], or a string that [int] reads as [n]. *)
Definition reports_accepted {rt : Runtime} (res : value) (n : Z) : Prop :=
  match nested_accepted res with
  | Some (VInt m) => m = n
  | Some (VStr str) => int_of_str str = Ok n
  | _ => False
  end.

(** [accepted_counts outs ns]: [ns] lists, in order, the accepted counts
    reported by the responses of the submissions that succeeded; a
    submission that raised has no entry. *)
Inductive accepted_counts {rt : Runtime} : list (result value) -> list Z -> Prop :=
  | accepted_counts_nil : accepted_counts [] []
  | accepted_counts_succeeded res n outs ns :
      reports_accepted res n -> accepted_counts outs ns ->
      accepted_counts (Ok res :: outs) (n :: ns)
  | accepted_counts_raised e outs ns :
      accepted_counts outs ns -> accepted_counts (Raise e :: outs) ns.

(** the outcomes and the final state that [submitted] relates to a start,
    computed *)
Fixpoint submit_all {rt : Runtime} {cfg : Settings} (count : Z)
    (batches : list (list scrobble)) (total : Z) (s : state)
    : list (result value) * state :=
  match batches with
  | [] => ([], s)
  | batch :: batches =>
      let '(r, s1) := scrobble_tracks batch s in
      let total := total + credited r in
      let '(outs, s') :=
        submit_all count batches total (after_chunk (chunk_log count total r) s1) in
      (r :: outs, s')
  end.

(** the key [k] of a JSON object *)
Definition field (data : value) (k : string) : option value :=
  match data with
  | VDict d => dict_get d k
  | _ => None
  end.

(** the session key the credentials file holds, if it holds one *)
Definition stored_session_key (f : option (result value)) : value :=
  match f with
  | Some (Ok data) => default VNone (field data "session_key")
  | _ => VNone
  end.

Definition is_hex_digit (c : ascii) : Prop :=
  c ∈ list_ascii_of_string "0123456789abcdef".

(** ** A runtime for running the model

    The abstract builtins restricted to ASCII: decimal integer literals with
    an optional sign, lowering of the letters [A-Z]. *)

Definition ascii_lower (c : ascii) : ascii :=
  let n := nat_of_ascii c in
  if ((65 <=? n) && (n <=? 90))%nat then ascii_of_nat (n + 32) else c.

Fixpoint str_map (f : ascii -> ascii) (s : string) : string :=
  match s with
  | EmptyString => EmptyString
  | String c s' => String (f c) (str_map f s')
  end.

Fixpoint digits_value (acc : Z) (s : string) : option Z :=
  match s with
  | EmptyString => Some acc
  | String c s' =>
      match Ascii.is_nat c with
      | Some d => digits_value (10 * acc + Z.of_nat d) s'
      | None => None
      end
  end.

Definition decimal_literal (s : string) : result Z :=
  let unsigned (t : string) : option Z :=
    match t with EmptyString => None | _ => digits_value 0 t end in
  let parsed :=
    match s with
    | String "-" t => Z.opp <$> unsigned t
    | String "+" t => unsigned t
    | _ => unsigned s
    end in
  match parsed with Some n => Ok n | None => Raise ValueError end.

Definition ascii_runtime : Runtime :=
  {| int_of_str := decimal_literal;
     str_lower := str_map ascii_lower;
     repr_value := fun _ => EmptyString |}.

(** ** Sample data *)

Definition sample_settings : Settings := {| API_KEY := "key"; API_SECRET := "secret" |}.

(** an authenticated scrobbler, no dict allocated yet, no credentials file *)
Definition sample_state (responses : list (result response)) (lines : list string)
    : state :=
  {| session_key := VStr "sk"; heap := []; cred_file := None; cred_writable := true;
     net := responses; stdin := lines; clock := 1700000000; trace := [] |}.

(** a response of the scrobble method that reports [n] accepted scrobbles *)
Definition accepted_response (status n : Z) : response :=
  {| status_code := status;
     body := Some (VDict [("scrobbles",
                           VDict [("@attr", VDict [("accepted", VInt n);
                                                    ("ignored", VInt 0)])])]) |}.

Definition sample_params : dict value :=
  [("method", VStr "track.scrobble"); ("format", VStr "json"); ("api_key", VStr "key");
   ("artist", VStr "Artist A"); ("timestamp[10]", VStr "1699999820");
   ("timestamp[2]", VInt 1700000000)].

(** the same pairs, inserted in another order *)
Definition sample_params_reordered : dict value :=
  [("timestamp[2]", VInt 1700000000); ("artist", VStr "Artist A");
   ("api_key", VStr "key"); ("timestamp[10]", VStr "1699999820");
   ("method", VStr "track.scrobble"); ("format", VStr "json")].

Definition with_heap (h : list (dict value)) : state :=
  set_heap h (sample_state [] []).

Definition sample_event : scrobble :=
  {| artist := "Artist A"; track := "Track B"; timestamp := 1700000000 |}.

(** the material [get_signature] hashes for a dict from which ['format']
    has been popped, before the secret is appended *)
Definition key_values {rt : Runtime} (d : dict value) : string :=
  String.concat EmptyString
    ((fun k => k +:+ py_str (default VNone (dict_get d k))) <$> sorted_str (dict_keys d)).

(** ** The loop of [main], the requests on the wire, frames *)

Section Loop.
Context {rt : Runtime} {cfg : Settings}.

(** [while True: ...]; [fuel] bounds the number of iterations.  The result
    is [true] when the loop was left by [break], [false] when the bound was
    reached. *)
Fixpoint main_loop (fuel : nat) : M bool :=
  match fuel with
  | O => mret false
  | S fuel' =>
      continue ← main_iteration;
      if continue : bool then main_loop fuel' else mret true
  end.

(** the parameters of the event at position [idx] of a batch *)
Definition event_params (idx : nat) (sc : scrobble) : dict value :=
  [(indexed "artist" idx, VStr (artist sc));
   (indexed "track" idx, VStr (track sc));
   (indexed "timestamp" idx, VStr (pretty (timestamp sc)))].

(** the parameters of a batch submission, before signing *)
Definition batch_params (sk : value) (scrobbles : list scrobble) : dict value :=
  [("method", VStr "track.scrobble"); ("api_key", VStr API_KEY); ("sk", sk)]
  ++ mjoin (imap event_params scrobbles).

(** the parameters of a single submission, before signing *)
Definition track_params (sk : value) (artist title : string) (ts : Z) : dict value :=
  [("method", VStr "track.scrobble"); ("api_key", VStr API_KEY); ("sk", sk);
   ("artist", VStr artist); ("track", VStr title); ("timestamp", VStr (pretty ts))].

(** the parameters of the two requests of the handshake *)
Definition token_params : dict value :=
  [("method", VStr "auth.getToken"); ("api_key", VStr API_KEY); ("format", VStr "json")].

Definition session_params (token : value) : dict value :=
  [("method", VStr "auth.getSession"); ("api_key", VStr API_KEY); ("token", token)].

(** a request as it goes on the wire: the parameters, their signature, the
    output format *)
Definition signed (params : dict value) : dict value :=
  params ++ [("api_sig", VStr (md5_hexdigest (signed_material params)));
             ("format", VStr "json")].

(** the page the user is sent to *)
Definition auth_url (token : value) : string :=
  "http://www.last.fm/api/auth/?api_key=" +:+ API_KEY +:+ "&token=" +:+ py_str token.

End Loop.

(** [keeps R m]: whatever [m] returns or raises, the state it ends in is
    related by [R] to the state it started in. *)
Definition keeps (R : relation state) {A} (m : M A) : Prop :=
  ∀ s, R s (m s).2.

(** [raises_keep R m]: when [m] raises, the state it ends in is related by
    [R] to the state it started in. *)
Definition raises_keep (R : relation state) {A} (m : M A) : Prop :=
  ∀ s e s', m s = (Raise e, s') → R s s'.

(** the clock has not moved *)
Definition same_clock : relation state := fun s s' => clock s' = clock s.

(** no line of input has been put back *)
Definition stdin_shrinks : relation state := fun s s' =>
  (length (stdin s') ≤ length (stdin s))%nat.

(** the session key and the credentials file are as they were *)
Definition same_credentials : relation state := fun s s' =>
  session_key s' = session_key s ∧ cred_file s' = cred_file s.

(** the session key, the credentials file and the pending input are as
    they were *)
Definition same_login : relation state := fun s s' =>
  session_key s' = session_key s ∧ cred_file s' = cred_file s
  ∧ stdin s' = stdin s.

(** the requests among the events of a trace, oldest first *)
Definition requests_of (evs : list event) : list (http_method * dict value) :=
  omap (fun ev => match ev with
                  | EvRequest m _ params => Some (m, params)
                  | _ => None
                  end) evs.

(** whether [raise_for_status] raises on a status *)
Definition is_http_error (status : Z) : bool := (400 <=? status) && (status <? 600).

(** a state in which the scrobbler has no session key yet *)
Definition fresh_state (responses : list (result response)) (lines : list string)
    : state :=
  set_session_key VNone (sample_state responses lines).

Definition token_response : response :=
  {| status_code := 200; body := Some (VDict [("token", VStr "tok")]) |}.

Definition session_response : response :=
  {| status_code := 200;
     body := Some (VDict [("session", VDict [("name", VStr "user"); ("key", VStr "sk9")])]) |}.

(** * Properties *)

(** ** Dicts *)

Lemma filter_Forall_id {A} (P : A → Prop) `{∀ x, Decision (P x)} (l : list A) :
  Forall P l → filter P l = l.
Proof.
  induction 1 as [|x l Hx _ IH]; [done|].
  by rewrite filter_cons_True, IH.
Qed.

Section dict_facts.
Context {V : Type}.
Implicit Types (d : dict V) (k : string).

Lemma elem_of_dict_keys d k : k ∈ dict_keys d ↔ is_Some (dict_get d k).
Proof.
  unfold dict_keys. induction d as [|[k' v] d IH]; simpl.
  - split; [by intros ?%elem_of_nil | by intros [? ?]].
  - rewrite elem_of_cons, IH. destruct (decide (k' = k)) as [->|Hne].
    + split; [eauto | by left].
    + split; [intros [->|?]; [done|done] | by right].
Qed.

Lemma dict_get_pop_ne d k k' : k ≠ k' → dict_get (dict_pop d k') k = dict_get d k.
Proof.
  intros Hne. induction d as [|[k0 v] d IH]; simpl; [done|].
  destruct (decide (k0 = k')) as [->|?]; simpl.
  - by rewrite decide_False by done.
  - by rewrite IH.
Qed.

Lemma dict_keys_pop d k :
  dict_wf d → dict_keys (dict_pop d k) = filter (fun k' => k' ≠ k) (dict_keys d).
Proof.
  unfold dict_wf, dict_keys. induction d as [|[k0 v] d IH]; csimpl; [done|].
  intros [Hnotin Hnd]%NoDup_cons. destruct (decide (k0 = k)) as [->|Hne].
  - rewrite filter_cons_False by (simpl; tauto).
    symmetry. apply filter_Forall_id, Forall_forall. intros x Hx ->. done.
  - rewrite filter_cons_True by done. csimpl. by rewrite IH.
Qed.

Lemma dict_wf_pop d k : dict_wf d → dict_wf (dict_pop d k).
Proof.
  intros Hwf. unfold dict_wf. rewrite dict_keys_pop by done.
  by apply NoDup_filter.
Qed.

Lemma dict_keys_set d k v :
  dict_keys (dict_set d k v) =
    if decide (k ∈ dict_keys d) then dict_keys d else dict_keys d ++ [k].
Proof.
  unfold dict_keys. induction d as [|[k0 v0] d IH]; csimpl; [done|].
  destruct (decide (k0 = k)) as [->|Hne]; csimpl.
  - by rewrite decide_True by left.
  - rewrite IH. destruct (decide (k ∈ d.*1)).
    + by rewrite decide_True by (by right).
    + rewrite decide_False; [done|]. intros [?|?]%elem_of_cons; congruence.
Qed.

Lemma dict_wf_set d k v : dict_wf d → dict_wf (dict_set d k v).
Proof.
  unfold dict_wf. rewrite dict_keys_set. case_decide; [done|].
  intros Hnd. apply NoDup_app. split_and!; [done| |apply NoDup_singleton].
  intros x Hx ->%list_elem_of_singleton. done.
Qed.

Lemma dict_get_set d k v k' :
  dict_get (dict_set d k v) k' = if decide (k = k') then Some v else dict_get d k'.
Proof.
  induction d as [|[k0 v0] d IH]; simpl.
  - by destruct (decide (k = k')).
  - destruct (decide (k0 = k)) as [->|Hne]; simpl.
    + by destruct (decide (k = k')).
    + rewrite IH. destruct (decide (k0 = k')) as [->|?]; [|done].
      by rewrite decide_False by done.
Qed.

(** Two dicts with the same key-value pairs have the same keys, up to the
    order of insertion. *)
Lemma dict_keys_Permutation (d1 d2 : dict V) :
  dict_wf d1 → dict_wf d2 → (∀ k, dict_get d1 k = dict_get d2 k) →
  dict_keys d1 ≡ₚ dict_keys d2.
Proof.
  intros Hwf1 Hwf2 Heq. apply NoDup_Permutation; [done..|].
  intros k. by rewrite !elem_of_dict_keys, Heq.
Qed.

End dict_facts.

(** ** Sorting *)

Lemma sorted_str_Permutation (l1 l2 : list string) :
  l1 ≡ₚ l2 → sorted_str l1 = sorted_str l2.
Proof.
  intros Hp. unfold sorted_str.
  apply (Sorted_unique String.le); try apply (Sorted_merge_sort String.le).
  by rewrite !merge_sort_Permutation.
Qed.

Lemma sort_int_sorted (l : list Z) : Sorted Z.le l → sort_int l = l.
Proof.
  intros Hs. unfold sort_int.
  apply (Sorted_unique Z.le); [apply (Sorted_merge_sort Z.le)|done|].
  apply merge_sort_Permutation.
Qed.

Lemma sort_int_Permutation (l1 l2 : list Z) :
  l1 ≡ₚ l2 → sort_int l1 = sort_int l2.
Proof.
  intros Hp. unfold sort_int.
  apply (Sorted_unique Z.le); try apply (Sorted_merge_sort Z.le).
  by rewrite !merge_sort_Permutation.
Qed.

(** ** Running the monad *)

(** unfolds the combinators of the monad and the one-line primitives *)
Ltac run_M :=
  cbv beta iota zeta delta
    [mbind M_bind mret M_ret raise lift try_except gets modify emit
     logger_error logger_info print webbrowser_open time_time].

Lemma bind_run {A B} (m : M A) (f : A → M B) (s s' : state) (a : A) :
  m s = (Ok a, s') → (m ≫= f) s = f a s'.
Proof. intros Hm. unfold mbind, M_bind. by rewrite Hm. Qed.

Lemma deref_run (l : loc) (d : dict value) (s : state) :
  heap s !! l = Some d → deref l s = (Ok d, s).
Proof. intros Hl. unfold deref, gets. by rewrite Hl. Qed.

Lemma obj_getitem_run (l : loc) (d : dict value) (k : string) (v : value) (s : state) :
  heap s !! l = Some d → dict_get d k = Some v → obj_getitem l k s = (Ok v, s).
Proof.
  intros Hl Hk. unfold obj_getitem. erewrite bind_run by by apply deref_run.
  by rewrite Hk.
Qed.

Lemma obj_setitem_run (l : loc) (d : dict value) (k : string) (v : value) (s : state) :
  heap s !! l = Some d →
  obj_setitem l k v s = (Ok tt, set_heap (<[l := dict_set d k v]> (heap s)) s).
Proof.
  intros Hl. unfold obj_setitem. by erewrite bind_run by by apply deref_run.
Qed.

Lemma obj_pop_run (l : loc) (d : dict value) (k : string) (s : state) :
  heap s !! l = Some d →
  obj_pop l k s = (Ok tt, set_heap (<[l := dict_pop d k]> (heap s)) s).
Proof.
  intros Hl. unfold obj_pop. by erewrite bind_run by by apply deref_run.
Qed.

Lemma obj_copy_run (l : loc) (d : dict value) (s : state) :
  heap s !! l = Some d →
  obj_copy l s = (Ok (length (heap s)), set_heap (heap s ++ [d]) s).
Proof.
  intros Hl. unfold obj_copy. by erewrite bind_run by by apply deref_run.
Qed.

Lemma obj_keys_run (l : loc) (d : dict value) (s : state) :
  heap s !! l = Some d → obj_keys l s = (Ok (dict_keys d), s).
Proof.
  intros Hl. unfold obj_keys. by erewrite bind_run by by apply deref_run.
Qed.

Lemma heap_snoc_lookup (h : list (dict value)) d : (h ++ [d]) !! length h = Some d.
Proof. by rewrite lookup_app_r, Nat.sub_diag by lia. Qed.

Lemma heap_snoc_insert (h : list (dict value)) d d' :
  <[length h := d']> (h ++ [d]) = h ++ [d'].
Proof. by rewrite insert_app_r_alt, Nat.sub_diag by lia. Qed.

Section signer_facts.
Context {rt : Runtime} {cfg : Settings}.

Lemma mapM_getitem_run (l : loc) (d : dict value) (ks : list string) (s : state) :
  heap s !! l = Some d →
  (∀ k, k ∈ ks → is_Some (dict_get d k)) →
  mapM (fun k => v ← obj_getitem l k; mret (k +:+ py_str v)) ks s
  = (Ok ((fun k => k +:+ py_str (default VNone (dict_get d k))) <$> ks), s).
Proof.
  intros Hl. induction ks as [|k ks IH]; intros Hks; [done|].
  destruct (Hks k) as [v Hv]; [by left|].
  cbn [mapM].
  erewrite bind_run; last first.
  { erewrite bind_run by by eapply obj_getitem_run. done. }
  erewrite bind_run by (apply IH; intros k' Hk'; apply Hks; by right).
  csimpl. by rewrite Hv.
Qed.

(** What a call of [get_signature] does: it allocates one dict, the copy
    without ['format'], and returns the digest of its sorted key-value
    pairs followed by the secret. *)
Lemma get_signature_run (p : loc) (m : dict value) (s : state) :
  heap s !! p = Some m →
  get_signature p s
  = (Ok (md5_hexdigest (key_values (dict_pop m "format") +:+ API_SECRET)),
     set_heap (heap s ++ [dict_pop m "format"]) s).
Proof.
  intros Hp. unfold get_signature.
  erewrite bind_run by by apply obj_copy_run.
  erewrite bind_run; last first.
  { eapply obj_pop_run. cbn. apply heap_snoc_lookup. }
  cbn [heap set_heap]. rewrite heap_snoc_insert.
  erewrite bind_run; last first.
  { eapply obj_keys_run. cbn. apply heap_snoc_lookup. }
  erewrite bind_run; last first.
  { eapply mapM_getitem_run; [cbn; apply heap_snoc_lookup|].
    intros k Hk. apply elem_of_dict_keys.
    unfold sorted_str in Hk. by rewrite merge_sort_Permutation in Hk. }
  done.
Qed.

Lemma key_values_pop_format (m : dict value) :
  dict_wf m → key_values (dict_pop m "format") +:+ API_SECRET = signed_material m.
Proof.
  intros Hwf. unfold key_values, signed_material.
  rewrite dict_keys_pop by done. f_equal. f_equal.
  apply list_fmap_ext. intros i k Hk.
  assert (k ∈ filter (fun k' : string => k' ≠ "format") (dict_keys m)) as Hin.
  { rewrite <- (merge_sort_Permutation String.le). by eapply list_elem_of_lookup_2. }
  apply list_elem_of_filter in Hin as [Hne _].
  by rewrite dict_get_pop_ne.
Qed.

Lemma key_values_ext (d1 d2 : dict value) :
  dict_wf d1 → dict_wf d2 → (∀ k, dict_get d1 k = dict_get d2 k) →
  key_values d1 = key_values d2.
Proof.
  intros Hwf1 Hwf2 Heq. unfold key_values.
  rewrite (sorted_str_Permutation (dict_keys d1) (dict_keys d2))
    by by apply dict_keys_Permutation.
  f_equal. apply list_fmap_ext. intros i k _. by rewrite Heq.
Qed.

End signer_facts.

(** ** The digest is 32 lowercase hexadecimal digits *)

Lemma length_le_bytes (n : nat) (x : Z) : length (le_bytes n x) = n.
Proof. revert x. induction n as [|n IH]; intros x; simpl; [done|]. by rewrite IH. Qed.

Lemma length_md5 (msg : list Byte.byte) : length (md5 msg) = 16%nat.
Proof.
  unfold md5.
  destruct (foldl md5_block md5_init _) as [[[a b] c] d].
  by rewrite !length_app, !length_le_bytes.
Qed.

Lemma hex_digit_is_hex (x : Z) : is_hex_digit (hex_digit x).
Proof.
  unfold is_hex_digit, hex_digit.
  destruct (nth_in_or_default (Z.to_nat x) (list_ascii_of_string "0123456789abcdef")
              "0"%char) as [Hin | ->].
  - by apply list_elem_of_In.
  - by left.
Qed.

Lemma hexlify_chars (bs : list Byte.byte) :
  list_ascii_of_string (hexlify bs) = bs ≫= hex_byte.
Proof. unfold hexlify. apply list_ascii_of_string_of_list_ascii. Qed.

Lemma hexlify_hex (bs : list Byte.byte) :
  Forall is_hex_digit (list_ascii_of_string (hexlify bs)).
Proof.
  rewrite hexlify_chars.
  induction bs as [|b bs IH]; csimpl; [done|].
  repeat (apply Forall_cons; split; [apply hex_digit_is_hex|]). done.
Qed.

Lemma string_length_of_list (l : list ascii) :
  String.length (string_of_list_ascii l) = length l.
Proof. induction l as [|c l IH]; simpl; [done|]. by rewrite IH. Qed.

Lemma hexlify_length (bs : list Byte.byte) :
  String.length (hexlify bs) = (2 * length bs)%nat.
Proof.
  unfold hexlify. rewrite string_length_of_list.
  induction bs as [|b bs IH]; csimpl; [done|]. rewrite IH. lia.
Qed.

Lemma dict_pop_absent {V} (d : dict V) (k : string) :
  k ∉ dict_keys d → dict_pop d k = d.
Proof.
  unfold dict_keys. induction d as [|[k0 v] d IH]; csimpl; [done|].
  intros Hnotin. destruct (decide (k0 = k)) as [->|?].
  - exfalso. apply Hnotin. by left.
  - rewrite IH; [done|]. intros ?. apply Hnotin. by right.
Qed.

Lemma dict_pop_pop {V} (d : dict V) (k : string) :
  dict_wf d → dict_pop (dict_pop d k) k = dict_pop d k.
Proof.
  intros Hwf. apply dict_pop_absent. rewrite dict_keys_pop by done.
  intros [? _]%list_elem_of_filter. done.
Qed.

(** ** The signer *)

Section signer.
Context {rt : Runtime} {cfg : Settings}.

(** C3.  For a parameter dict [m], [get_signature] returns the lowercase
    hexadecimal MD5 digest of the concatenation of [key + value] over the
    keys of [m] other than ['format'], in sorted key order, followed by the
    shared secret; the digest is 32 hexadecimal digits; and the dict that
    has ['format'] popped gets the same signature. *)
Theorem get_signature_signed_material (p : loc) (m : dict value) (s : state) :
  heap s !! p = Some m →
  dict_wf m →
  let sig := md5_hexdigest (signed_material m) in
  (get_signature p s).1 = Ok sig
  ∧ String.length sig = 32%nat
  ∧ Forall is_hex_digit (list_ascii_of_string sig)
  ∧ ∀ (p' : loc) (s' : state),
      heap s' !! p' = Some (dict_pop m "format") →
      (get_signature p' s').1 = (get_signature p s).1.
Proof.
  intros Hp Hwf sig. split_and!.
  - rewrite (get_signature_run p m) by done. cbn.
    by rewrite key_values_pop_format.
  - unfold sig, md5_hexdigest. by rewrite hexlify_length, length_md5.
  - apply hexlify_hex.
  - intros p' s' Hp'.
    rewrite (get_signature_run p m), (get_signature_run p' _ s' Hp') by done.
    cbn. by rewrite dict_pop_pop.
Qed.

(** C6.  The signature depends on the key-value pairs of the dict only:
    two dicts with the same pairs, whatever their insertion orders and
    whatever the states they live in, get the same signature. *)
Theorem get_signature_insertion_order (p1 p2 : loc) (m1 m2 : dict value)
    (s1 s2 : state) :
  heap s1 !! p1 = Some m1 →
  heap s2 !! p2 = Some m2 →
  dict_wf m1 →
  dict_wf m2 →
  (∀ k, dict_get m1 k = dict_get m2 k) →
  (get_signature p1 s1).1 = (get_signature p2 s2).1.
Proof.
  intros Hp1 Hp2 Hwf1 Hwf2 Heq.
  rewrite (get_signature_run p1 m1), (get_signature_run p2 m2) by done. cbn.
  do 3 f_equal. apply key_values_ext; [by apply dict_wf_pop..|].
  intros k. destruct (decide (k = "format")) as [->|Hne].
  - pose proof (dict_wf_pop m1 "format" Hwf1) as H1.
    pose proof (dict_wf_pop m2 "format" Hwf2) as H2.
    assert (∀ m : dict value, dict_wf m → dict_get (dict_pop m "format") "format" = None)
      as Hnone.
    { intros m Hm. apply eq_None_not_Some. rewrite <- elem_of_dict_keys.
      rewrite dict_keys_pop by done. intros [? _]%list_elem_of_filter. done. }
    by rewrite !Hnone.
  - by rewrite !dict_get_pop_ne.
Qed.

(** C9.  [get_signature] leaves its argument as it was: the dict at [p]
    has the same key-value pairs after the call, ['format'] included, and so
    has every other dict; the signer only allocates its private copy, and
    nothing else in the state changes. *)
Theorem get_signature_no_side_effect (p : loc) (m : dict value) (s : state) :
  heap s !! p = Some m →
  let s' := (get_signature p s).2 in
  heap s' !! p = Some m
  ∧ (∀ (l : loc) (d : dict value), heap s !! l = Some d → heap s' !! l = Some d)
  ∧ heap s' = heap s ++ [dict_pop m "format"]
  ∧ session_key s' = session_key s
  ∧ cred_file s' = cred_file s
  ∧ cred_writable s' = cred_writable s
  ∧ net s' = net s
  ∧ stdin s' = stdin s
  ∧ clock s' = clock s
  ∧ trace s' = trace s.
Proof.
  intros Hp s'. unfold s'. rewrite (get_signature_run p m) by done. cbn.
  split_and!; try done.
  - by apply lookup_app_l_Some.
  - intros l d Hl. by apply lookup_app_l_Some.
Qed.

End signer.

(** ** The credential store *)

Section credentials.
Context {rt : Runtime} {cfg : Settings}.

Lemma load_session_run (s : state) :
  ∃ evs, load_session s
         = (Ok (stored_session_key (cred_file s)), set_trace (trace s ++ evs) s).
Proof.
  assert (set_trace (trace s ++ []) s = s) as Hid.
  { rewrite app_nil_r. by destruct s. }
  unfold load_session, stored_session_key. run_M.
  destruct (cred_file s) as [[data|e]|].
  - destruct data as [| | | |str|l|d]; cbn;
      try (eexists [_]; reflexivity).
    + destruct (is_substring "session_key" str); cbn;
        [eexists [_]; reflexivity | exists []; by rewrite Hid].
    + destruct (existsb (is_str "session_key") l); cbn;
        [eexists [_]; reflexivity | exists []; by rewrite Hid].
    + destruct (dict_get d "session_key") as [v|] eqn:Hd; cbn.
      * exists []. by rewrite Hid.
      * exists []. by rewrite Hid.
  - cbn. eexists [_]; reflexivity.
  - cbn. exists []. by rewrite Hid.
Qed.

(** C10.  [load_session] never raises: it returns the value of
    ['session_key'] when the file exists, loads as JSON and is an object
    with that key, and [None] in every other case (file absent, unreadable,
    malformed, or without the key); so constructing the scrobbler always
    succeeds and sets [session_key] to that value. *)
Theorem load_session_never_raises (s : state) :
  let key := stored_session_key (cred_file s) in
  (∃ s', load_session s = (Ok key, s') ∧ init s = (Ok tt, set_session_key key s'))
  ∧ (cred_file s = None → key = VNone)
  ∧ (∀ e, cred_file s = Some (Raise e) → key = VNone)
  ∧ (∀ data, cred_file s = Some (Ok data) → field data "session_key" = None →
       key = VNone)
  ∧ (key ≠ VNone →
       ∃ data, cred_file s = Some (Ok data) ∧ field data "session_key" = Some key).
Proof.
  intros key. split_and!.
  - destruct (load_session_run s) as [evs Hrun]. eexists. split; [exact Hrun|].
    unfold init. by erewrite bind_run by exact Hrun.
  - unfold key. by intros ->.
  - unfold key. by intros e ->.
  - unfold key. intros data -> Hf. cbn. by rewrite Hf.
  - unfold key, stored_session_key. intros Hkey.
    destruct (cred_file s) as [[data|e]|]; try done.
    exists data. split; [done|]. destruct (field data "session_key"); done.
Qed.

End credentials.

(** ** The prompt loop *)

Section prompts.
Context {rt : Runtime} {cfg : Settings}.

Lemma input_run (prompt : string) (s : state) :
  input prompt s =
    match stdin s with
    | [] => (Raise EOFError, set_trace (trace s ++ [EvInput prompt]) s)
    | line :: rest =>
        (Ok line, set_stdin rest (set_trace (trace s ++ [EvInput prompt]) s))
    end.
Proof. unfold input. run_M. cbn. by destruct (stdin s). Qed.

(** the prompts answered with an artist, a title, an integer and no
    backdating *)
Lemma read_job_no_backdate (s : state) (artist title entered answer : string)
    (rest : list string) (n : Z) :
  stdin s = artist :: title :: entered :: answer :: rest →
  str_lower artist ≠ "quit" →
  int_of_str entered = Ok n →
  str_lower answer ≠ "y" →
  (read_job s).1
  = Ok (Some {| job_artist := artist; job_title := title;
                job_count := Z.min 1000 (Z.max 1 n); job_start_date := None |}).
Proof.
  intros Hin Hquit Hn Hanswer. unfold read_job.
  unfold mbind at 1, M_bind at 1. unfold print at 1, emit at 1, modify at 1.
  unfold mbind at 1, M_bind at 1. rewrite input_run. cbn [stdin set_trace].
  rewrite Hin. rewrite bool_decide_eq_false_2 by done.
  unfold mbind at 1, M_bind at 1. rewrite input_run. cbn [stdin set_trace set_stdin].
  unfold mbind at 1, M_bind at 1. rewrite input_run. cbn [stdin set_trace set_stdin].
  unfold mbind at 1, M_bind at 1. unfold lift at 1. rewrite Hn.
  unfold mbind at 1, M_bind at 1. rewrite input_run. cbn [stdin set_trace set_stdin].
  unfold mbind at 1, M_bind at 1. rewrite bool_decide_eq_false_2 by done.
  reflexivity.
Qed.

(** C5.  Whenever the prompts lead to a call of [batch_scrobble], the
    count passed is [min(1000, max(1, n))] for the integer [n] entered at
    the third prompt: it lies in [1, 1000], is 1000 for [n > 1000] and 1 for
    [n < 1]. *)
Theorem read_job_clamps_count (s s' : state) (j : job) :
  read_job s = (Ok (Some j), s') →
  ∃ (entered : string) (n : Z),
    stdin s !! 2%nat = Some entered
    ∧ int_of_str entered = Ok n
    ∧ job_count j = Z.min 1000 (Z.max 1 n)
    ∧ 1 ≤ job_count j ≤ 1000
    ∧ (1000 < n → job_count j = 1000)
    ∧ (n < 1 → job_count j = 1)
    ∧ main_iteration s =
        (print (String "010" "Scrobbling " +:+ pretty (Z.min 1000 (Z.max 1 n))
                  +:+ " times...");;
         success_count ← batch_scrobble (job_artist j) (job_title j)
                           (Z.min 1000 (Z.max 1 n)) (job_start_date j);
         print (String "010" "Successfully scrobbled " +:+ pretty success_count
                  +:+ " times!");;
         mret true) s'.
Proof.
  intros Hrun.
  assert (main_iteration s =
    (print (String "010" "Scrobbling " +:+ pretty (job_count j) +:+ " times...");;
     success_count ← batch_scrobble (job_artist j) (job_title j) (job_count j)
                       (job_start_date j);
     print (String "010" "Successfully scrobbled " +:+ pretty success_count
              +:+ " times!");;
     mret true) s') as Hmain.
  { unfold main_iteration. by erewrite bind_run by exact Hrun. }
  revert Hrun. unfold read_job.
  unfold mbind at 1, M_bind at 1. unfold print at 1, emit at 1, modify at 1.
  unfold mbind at 1, M_bind at 1. rewrite input_run. cbn [stdin set_trace].
  destruct (stdin s) as [|artist [|title [|entered rest]]] eqn:Hin; [done|..].
  - case_bool_decide; [done|].
    unfold mbind at 1, M_bind at 1. rewrite input_run. by cbn.
  - case_bool_decide; [done|].
    unfold mbind at 1, M_bind at 1. rewrite input_run. cbn [stdin set_trace set_stdin].
    unfold mbind at 1, M_bind at 1. rewrite input_run. by cbn.
  - case_bool_decide; [done|].
    unfold mbind at 1, M_bind at 1. rewrite input_run. cbn [stdin set_trace set_stdin].
    unfold mbind at 1, M_bind at 1. rewrite input_run. cbn [stdin set_trace set_stdin].
    unfold mbind at 1, M_bind at 1. unfold lift at 1.
    destruct (int_of_str entered) as [n|e] eqn:Hn; [|done].
    intros Hrest. exists entered, n.
    assert (job_count j = Z.min 1000 (Z.max 1 n)) as Hcount.
    { revert Hrest. unfold mbind at 1, M_bind at 1. rewrite input_run.
      cbn [stdin set_trace set_stdin].
      destruct rest as [|answer rest]; [done|].
      unfold mbind at 1, M_bind at 1.
      match goal with
      | |- context [(if ?b then ?m1 else ?m2) ?st] =>
          destruct ((if b then m1 else m2) st) as [[start|e] s2]; [|done]
      end.
      run_M. by intros [= <- _]. }
    rewrite <- Hcount. split_and!; try done; lia.
Qed.

End prompts.

(** ** The scrobble submitter *)

Section submitter.
Context {rt : Runtime} {cfg : Settings}.

Lemma add_scrobble_run (p : loc) (item : nat * scrobble) (d : dict value) (s : state) :
  heap s !! p = Some d →
  ∃ d', add_scrobble p item tt s = (Ok tt, set_heap (<[p := d']> (heap s)) s).
Proof.
  intros Hp. destruct item as [idx sc]. unfold add_scrobble.
  pose proof (lookup_lt_Some _ _ _ Hp) as Hlt.
  erewrite bind_run by by eapply obj_setitem_run.
  erewrite bind_run; last first.
  { eapply obj_setitem_run. cbn. by apply list_lookup_insert_eq. }
  erewrite obj_setitem_run; last first.
  { cbn. apply list_lookup_insert_eq. by rewrite length_insert. }
  cbn. rewrite !list_insert_insert_eq. by eexists.
Qed.

Lemma fill_params_run (p : loc) (items : list (nat * scrobble)) (d : dict value)
    (s : state) :
  heap s !! p = Some d →
  ∃ d', for_fold items tt (add_scrobble p) s
        = (Ok tt, set_heap (<[p := d']> (heap s)) s).
Proof.
  revert d s. induction items as [|item items IH]; intros d s Hp.
  - exists d. cbn. unfold mret, M_ret. rewrite list_insert_id by done. by destruct s.
  - destruct (add_scrobble_run p item d s Hp) as [d1 Hrun].
    cbn [for_fold]. erewrite bind_run by exact Hrun.
    pose proof (lookup_lt_Some _ _ _ Hp) as Hlt.
    destruct (IH d1 (set_heap (<[p := d1]> (heap s)) s)) as [d' Hrest].
    { cbn. by apply list_lookup_insert_eq. }
    exists d'. rewrite Hrest. cbn. by rewrite list_insert_insert_eq.
Qed.

Lemma requests_send_run (m : http_method) (url : string) (p : loc) (d : dict value)
    (r : result response) (rest : list (result response)) (s : state) :
  heap s !! p = Some d →
  net s = r :: rest →
  requests_send m url p s
  = (r, set_net rest (set_trace (trace s ++ [EvRequest m url d]) s)).
Proof.
  intros Hp Hnet. unfold requests_send.
  erewrite bind_run by by apply deref_run.
  run_M. cbn. rewrite Hnet. by destruct r.
Qed.

(** the outcome of [scrobble_tracks] on a response *)
Lemma scrobble_tracks_run (scrobbles : list scrobble) (s s1 : state) (r : response)
    (rest : list (result response)) :
  ensure_auth s = (Ok tt, s1) →
  net s1 = Ok r :: rest →
  (scrobble_tracks scrobbles s).1 =
    if (400 <=? status_code r) && (status_code r <? 600)
    then Raise (HTTPError (status_code r))
    else match body r with Some data => Ok data | None => Raise JSONDecodeError end.
Proof.
  intros Hauth Hnet. unfold scrobble_tracks.
  erewrite bind_run by exact Hauth.
  erewrite bind_run by reflexivity.
  erewrite bind_run by reflexivity.
  edestruct (fill_params_run (length (heap s1))) as [d' Hfill];
    last (erewrite bind_run by exact Hfill).
  { cbn. apply heap_snoc_lookup. }
  cbn [heap set_heap]. rewrite heap_snoc_insert.
  erewrite bind_run; last first.
  { eapply get_signature_run. cbn. apply heap_snoc_lookup. }
  erewrite bind_run; last first.
  { eapply obj_setitem_run. cbn. rewrite lookup_app_l by (rewrite length_app; cbn; lia).
    apply heap_snoc_lookup. }
  erewrite bind_run; last first.
  { eapply obj_setitem_run. cbn. apply list_lookup_insert_eq.
    rewrite !length_app. cbn. lia. }
  erewrite bind_run; last first.
  { eapply requests_send_run; [|exact Hnet]. cbn. apply list_lookup_insert_eq.
    rewrite length_insert, !length_app. cbn. lia. }
  unfold raise_for_status, response_json.
  destruct ((400 <=? status_code r) && (status_code r <? 600)); [done|].
  run_M. by destruct (body r).
Qed.

(** the outcome of [scrobble_track] on a response *)
Lemma scrobble_track_run (artist title : string) (ts : option Z) (s s1 : state)
    (r : response) (rest : list (result response)) :
  ensure_auth s = (Ok tt, s1) →
  net s1 = Ok r :: rest →
  (scrobble_track artist title ts s).1 =
    match body r with Some data => Ok data | None => Raise JSONDecodeError end.
Proof.
  intros Hauth Hnet. unfold scrobble_track.
  erewrite bind_run by exact Hauth.
  erewrite bind_run by reflexivity.
  erewrite (bind_run _ _ s1 s1 (match ts with
                                | Some t => if t =? 0 then clock s1 else t
                                | None => clock s1
                                end));
    last by (destruct ts as [t|]; [destruct (t =? 0)|]).
  erewrite bind_run by reflexivity.
  erewrite bind_run; last first.
  { eapply get_signature_run. cbn. apply heap_snoc_lookup. }
  erewrite bind_run; last first.
  { eapply obj_setitem_run. cbn. rewrite lookup_app_l by (rewrite length_app; cbn; lia).
    apply heap_snoc_lookup. }
  erewrite bind_run; last first.
  { eapply obj_setitem_run. cbn. apply list_lookup_insert_eq.
    rewrite !length_app. cbn. lia. }
  erewrite bind_run; last first.
  { eapply requests_send_run; [|exact Hnet]. cbn. apply list_lookup_insert_eq.
    rewrite length_insert, !length_app. cbn. lia. }
  unfold response_json. run_M. by destruct (body r).
Qed.

(** C7 (as amended).  Once authentication has gone through and the request
    has got a response, [scrobble_tracks] raises [HTTPError] exactly when
    the status is a client or server error (400 to 599), and
    [scrobble_track] never looks at the status: it returns the parsed body
    whenever the body parses. *)
Theorem submitters_and_http_status (scrobbles : list scrobble) (artist title : string)
    (ts : option Z) (s s1 : state) (r : response) (rest : list (result response)) :
  ensure_auth s = (Ok tt, s1) →
  net s1 = Ok r :: rest →
  ((∃ status, (scrobble_tracks scrobbles s).1 = Raise (HTTPError status))
     ↔ 400 ≤ status_code r < 600)
  ∧ (∀ data, body r = Some data → (scrobble_track artist title ts s).1 = Ok data)
  ∧ (∀ data, body r = Some data → ¬ 400 ≤ status_code r < 600 →
       (scrobble_tracks scrobbles s).1 = Ok data).
Proof.
  intros Hauth Hnet.
  rewrite (scrobble_tracks_run scrobbles s s1 r rest Hauth Hnet).
  rewrite (scrobble_track_run artist title ts s s1 r rest Hauth Hnet).
  split_and!.
  - destruct (400 <=? status_code r) eqn:H1, (status_code r <? 600) eqn:H2; cbn;
      (split; [intros [st Hst]|intros ?]); try lia; eauto;
      destruct (body r); done.
  - by intros data ->.
  - intros data -> Hst.
    destruct (400 <=? status_code r) eqn:H1, (status_code r <? 600) eqn:H2; cbn;
      try done; lia.
Qed.

End submitter.

(** ** Ranges, slices and chunks *)

Lemma py_range_count (count : Z) :
  py_range 0 count 1 = Z.of_nat <$> seq 0 (Z.to_nat count).
Proof.
  unfold py_range.
  replace ((count - 0 + 1 - 1) / 1) with count by (rewrite Z.div_1_r; lia).
  apply list_fmap_ext. intros _ k _. lia.
Qed.

Lemma py_range_step_50 (len : nat) :
  py_range 0 (Z.of_nat len) 50
  = (fun k => Z.of_nat (50 * k)) <$> seq 0 ((len + 49) / 50).
Proof.
  unfold py_range.
  replace (Z.to_nat ((Z.of_nat len - 0 + 50 - 1) / 50)) with ((len + 49) / 50)%nat.
  - apply list_fmap_ext. intros _ k _. lia.
  - rewrite <- (Nat2Z.id ((len + 49) / 50)). f_equal.
    rewrite Nat2Z.inj_div. f_equal. lia.
Qed.

Lemma py_slice_take_drop {A} (l : list A) (i : nat) (n : nat) :
  py_slice l (Z.of_nat i) (Z.of_nat i + Z.of_nat n) = take n (drop i l).
Proof.
  unfold py_slice, slice_index.
  rewrite (proj2 (Z.ltb_ge _ _)) by lia.
  rewrite (proj2 (Z.ltb_ge _ _)) by lia.
  destruct (decide (i ≤ length l)%nat) as [Hle|Hgt].
  - replace (Z.to_nat (Z.of_nat i `min` Z.of_nat (length l))) with i by lia.
    replace (Z.to_nat ((Z.of_nat i + Z.of_nat n) `min` Z.of_nat (length l)
                       - Z.of_nat i `min` Z.of_nat (length l)))
      with (n `min` length (drop i l))%nat by (rewrite length_drop; lia).
    destruct (decide (n ≤ length (drop i l))%nat).
    + by rewrite Nat.min_l by done.
    + rewrite Nat.min_r by lia. by rewrite !take_ge by lia.
  - rewrite (drop_ge l i) by lia. rewrite take_nil.
    replace (Z.to_nat ((Z.of_nat i + Z.of_nat n) `min` Z.of_nat (length l)
                       - Z.of_nat i `min` Z.of_nat (length l))) with 0%nat by lia.
    done.
Qed.

Lemma groups_50 {A} (fuel : nat) (l : list A) :
  (length l ≤ fuel)%nat →
  groups fuel 50 l
  = (fun k => take 50 (drop (50 * k) l)) <$> seq 0 ((length l + 49) / 50).
Proof.
  revert l. induction fuel as [|fuel IH]; intros l Hlen.
  - destruct l; [done | cbn in Hlen; lia].
  - destruct l as [|x l]; [done|].
    change (groups (S fuel) 50 (x :: l))
      with (take 50 (x :: l) :: groups fuel 50 (drop 50 (x :: l))).
    rewrite IH by (rewrite length_drop; cbn in *; lia).
    replace ((length (x :: l) + 49) / 50)%nat
      with (S ((length (drop 50 (x :: l)) + 49) / 50)).
    + cbn [seq]. rewrite fmap_cons, <- fmap_S_seq, <- list_fmap_compose.
      f_equal. apply list_fmap_ext. intros _ k _. cbn [compose].
      rewrite drop_drop. do 2 f_equal. lia.
    + rewrite length_drop.
      destruct (decide (50 ≤ length (x :: l))%nat).
      * replace (length (x :: l) + 49)%nat
          with ((length (x :: l) - 50 + 49) + 1 * 50)%nat by lia.
        rewrite Nat.div_add by lia. lia.
      * replace (length (x :: l) - 50)%nat with 0%nat by lia.
        cbn [length] in *.
        rewrite (Nat.div_small (0 + 49)) by lia.
        apply (Nat.div_unique _ _ _ (length l)); lia.
Qed.

Lemma chunks_50_spec {A} (l : list A) :
  chunks 50 l = (fun k => take 50 (drop (50 * k) l)) <$> seq 0 ((length l + 49) / 50).
Proof. unfold chunks. by apply groups_50. Qed.

(** the slices the loop of [batch_scrobble] takes are the chunks *)
Lemma slices_are_chunks {A} (l : list A) :
  (fun i => py_slice l i (i + 50)) <$> py_range 0 (Z.of_nat (length l)) 50
  = chunks 50 l.
Proof.
  rewrite py_range_step_50, chunks_50_spec, <- list_fmap_compose.
  apply list_fmap_ext. intros _ k _. cbn [compose].
  apply (py_slice_take_drop l (50 * k) 50).
Qed.

Lemma concat_groups {A} (fuel n : nat) (l : list A) :
  (0 < n)%nat → (length l ≤ fuel)%nat → concat (groups fuel n l) = l.
Proof.
  intros Hn. revert l. induction fuel as [|fuel IH]; intros l Hlen.
  - destruct l; [done | cbn in Hlen; lia].
  - destruct l as [|x l]; [done|].
    change (groups (S fuel) n (x :: l))
      with (take n (x :: l) :: groups fuel n (drop n (x :: l))).
    cbn [concat]. rewrite IH; [apply take_drop|].
    rewrite length_drop. cbn in *. lia.
Qed.

Lemma chunks_50_sizes {A} (l : list A) :
  Forall (fun c => (length c ≤ 50)%nat) (chunks 50 l).
Proof.
  rewrite chunks_50_spec. apply Forall_fmap, Forall_forall. intros k _. cbn.
  rewrite length_take. lia.
Qed.

Lemma chunks_50_length {A} (l : list A) :
  Z.of_nat (length (chunks 50 l)) = ceil_div (Z.of_nat (length l)) 50.
Proof.
  rewrite chunks_50_spec, length_fmap, length_seq. unfold ceil_div.
  rewrite Nat2Z.inj_div, Nat2Z.inj_add. change (Z.of_nat 49) with 49.
  change (Z.of_nat 50) with 50. Z.div_mod_to_equations. lia.
Qed.

(** ** The timestamps of a run *)

Lemma descending_Sorted (base : Z) (a n : nat) :
  Sorted (flip Z.le) ((fun k => base - Z.of_nat k * 180) <$> seq a n).
Proof.
  revert a. induction n as [|n IH]; intros a; [constructor|].
  cbn [seq]. rewrite fmap_cons. constructor; [apply IH|].
  destruct n; cbn; constructor. unfold flip. lia.
Qed.

(** the list before [timestamps.sort()] and after it *)
Lemma batch_timestamps_reverse (base count : Z) :
  batch_timestamps base count
  = reverse ((fun k => base - Z.of_nat k * 180) <$> seq 0 (Z.to_nat count)).
Proof.
  unfold batch_timestamps. rewrite py_range_count, <- list_fmap_compose.
  change ((fun i => base - i * 180) ∘ Z.of_nat)
    with (fun k => base - Z.of_nat k * 180).
  set (u := (fun k => base - Z.of_nat k * 180) <$> seq 0 (Z.to_nat count)).
  rewrite (sort_int_Permutation u (reverse u)) by by rewrite reverse_Permutation.
  apply sort_int_sorted.
  apply (Sorted_reverse (flip Z.le)), descending_Sorted.
Qed.

Lemma batch_timestamps_lookup (base count : Z) (j : nat) :
  (j < Z.to_nat count)%nat →
  batch_timestamps base count !! j
  = Some (base - (count - 1 - Z.of_nat j) * 180).
Proof.
  intros Hj. rewrite batch_timestamps_reverse.
  rewrite reverse_lookup by (by rewrite length_fmap, length_seq).
  rewrite length_fmap, length_seq, list_lookup_fmap.
  rewrite lookup_seq_lt by lia. cbn. f_equal. lia.
Qed.

Lemma batch_timestamps_length (base count : Z) :
  length (batch_timestamps base count) = Z.to_nat count.
Proof.
  by rewrite batch_timestamps_reverse, length_reverse, length_fmap, length_seq.
Qed.

(** ** The batch planner *)

Section batch.
Context {rt : Runtime} {cfg : Settings}.

(** one pass through the loop body, for each outcome of the submission *)
Lemma batch_body_run (count : Z) (scrobbles : list scrobble) (i total : Z)
    (s s1 : state) (r : result value) :
  scrobble_tracks (py_slice scrobbles i (i + 50)) s = (r, s1) →
  batch_body count scrobbles i total s
  = (Ok (total + credited r),
     after_chunk (chunk_log count (total + credited r) r) s1).
Proof.
  intros Hsub. unfold batch_body, time_sleep.
  unfold mbind at 1, M_bind at 1. unfold try_except.
  unfold mbind at 1, M_bind at 1. rewrite Hsub.
  unfold after_chunk, chunk_log, credited.
  destruct r as [res|e].
  - run_M. destruct (accepted_count res) as [n|e]; cbn.
    + by rewrite <- app_assoc.
    + by rewrite Z.add_0_r, <- app_assoc.
  - run_M. cbn. by rewrite Z.add_0_r, <- app_assoc.
Qed.

Lemma sum_credited_cons (r : result value) (outs : list (result value)) :
  sum_credited (r :: outs) = credited r + sum_credited outs.
Proof. done. Qed.

(** the loop submits every slice, whatever the outcomes, and returns the
    sum of what it credits *)
Lemma batch_loop_run (count : Z) (scrobbles : list scrobble) (indices : list Z)
    (total : Z) (s : state) :
  ∃ (outs : list (result value)) (s' : state),
    submitted count ((fun i => py_slice scrobbles i (i + 50)) <$> indices) total s outs s'
    ∧ for_fold indices total (batch_body count scrobbles) s
      = (Ok (total + sum_credited outs), s').
Proof.
  revert total s. induction indices as [|i indices IH]; intros total s.
  - exists [], s. split; [constructor|]. cbn. unfold mret, M_ret. by rewrite Z.add_0_r.
  - destruct (scrobble_tracks (py_slice scrobbles i (i + 50)) s) as [r s1] eqn:Hsub.
    destruct (IH (total + credited r)
                (after_chunk (chunk_log count (total + credited r) r) s1))
      as (outs & s' & Hrest & Hrun).
    exists (r :: outs), s'. split.
    + rewrite fmap_cons. by econstructor.
    + cbn [for_fold]. erewrite bind_run by by apply batch_body_run.
      rewrite Hrun, sum_credited_cons. by rewrite Z.add_assoc.
Qed.

(** a run of [batch_scrobble]: the chunks of the events are submitted one
    after the other *)
Lemma batch_scrobble_run (artist title : string) (count : Z) (start_date : option Z)
    (s : state) :
  ∃ (outs : list (result value)) (s' : state),
    submitted count
      (chunks 50 (batch_events artist title count (default (clock s) start_date)))
      0 s outs s'
    ∧ batch_scrobble artist title count start_date s = (Ok (sum_credited outs), s').
Proof.
  unfold batch_scrobble.
  erewrite (bind_run _ _ s s (default (clock s) start_date))
    by by destruct start_date.
  rewrite <- slices_are_chunks.
  destruct (batch_loop_run count
              (batch_events artist title count (default (clock s) start_date))
              (py_range 0 (Z.of_nat (length (batch_events artist title count
                                               (default (clock s) start_date)))) 50)
              0 s) as (outs & s' & Hsub & Hrun).
  exists outs, s'. split; [done|]. by rewrite Hrun.
Qed.

Lemma submitted_length (count : Z) (batches : list (list scrobble)) (total : Z)
    (s s' : state) (outs : list (result value)) :
  submitted count batches total s outs s' → length outs = length batches.
Proof. induction 1; cbn; congruence. Qed.

Lemma batch_events_length (artist title : string) (count base : Z) :
  length (batch_events artist title count base) = Z.to_nat count.
Proof. unfold batch_events. by rewrite length_fmap, batch_timestamps_length. Qed.

(** the loop reads the count that a response reports *)
Lemma reports_accepted_count (res : value) (n : Z) :
  reports_accepted res n → accepted_count res = Ok n.
Proof.
  unfold reports_accepted, nested_accepted, accepted_count.
  destruct res as [| | | | | |d]; try done. cbn.
  destruct (dict_get d "scrobbles") as [[| | | | | |d1]|]; try done. cbn.
  destruct (dict_get d1 "@attr") as [[| | | | | |d2]|]; try done. cbn.
  destruct (dict_get d2 "accepted") as [[| | | | | |]|]; try done; cbn.
  by intros ->.
Qed.

Lemma sum_credited_full (batches : list (list scrobble)) (outs : list (result value)) :
  Forall2 (fun batch r => ∃ res, r = Ok res
                            ∧ reports_accepted res (Z.of_nat (length batch)))
          batches outs →
  sum_credited outs = Z.of_nat (length (concat batches)).
Proof.
  induction 1 as [|batch r batches outs (res & -> & Hacc) _ IH]; [done|].
  rewrite sum_credited_cons, IH. unfold credited.
  rewrite (reports_accepted_count _ _ Hacc).
  cbn [concat]. rewrite length_app. lia.
Qed.

Lemma sum_credited_accepted_counts (outs : list (result value)) (ns : list Z) :
  accepted_counts outs ns → sum_credited outs = foldr Z.add 0 ns.
Proof.
  induction 1 as [|res n outs ns Hacc _ IH|e outs ns _ IH]; [done|..].
  - rewrite sum_credited_cons, IH. unfold credited.
    by rewrite (reports_accepted_count _ _ Hacc).
  - by rewrite sum_credited_cons, IH.
Qed.

(** [submitted] is the graph of [submit_all] *)
Lemma submitted_submit_all (count : Z) (batches : list (list scrobble)) (total : Z)
    (s s' : state) (outs : list (result value)) :
  submitted count batches total s outs s' →
  submit_all count batches total s = (outs, s').
Proof.
  induction 1 as [|batch batches total s r s1 outs s' Hsub _ IH]; [done|].
  cbn [submit_all]. by rewrite Hsub, IH.
Qed.

(** C1.  For [count ≥ 0], [batch_scrobble] cuts the [count] events into
    [ceil(count/50)] consecutive chunks of at most 50 events and passes
    each chunk, in order, to one call of [scrobble_tracks]; for
    [count = 120] the chunks have 50, 50 and 20 events; the run returns a
    number, and when the response to every chunk reports, in its field
    [scrobbles.@attr.accepted], the size of that chunk as accepted, this
    number is [count] (so 120 for 120 events). *)
Theorem batch_scrobble_chunks (artist title : string) (count : Z)
    (start_date : option Z) (s : state) :
  0 ≤ count →
  let events := batch_events artist title count (default (clock s) start_date) in
  let batches := chunks 50 events in
  Z.of_nat (length events) = count
  ∧ concat batches = events
  ∧ Z.of_nat (length batches) = ceil_div count 50
  ∧ Forall (fun batch => (length batch ≤ 50)%nat) batches
  ∧ (count = 120 → length <$> batches = [50; 50; 20]%nat)
  ∧ ∃ (outs : list (result value)) (s' : state) (total : Z),
      submitted count batches 0 s outs s'
      ∧ length outs = length batches
      ∧ batch_scrobble artist title count start_date s = (Ok total, s')
      ∧ (Forall2 (fun batch r => ∃ res, r = Ok res
                     ∧ reports_accepted res (Z.of_nat (length batch)))
                 batches outs →
         total = count).
Proof.
  intros Hcount events batches.
  assert (length events = Z.to_nat count) as Hlen by apply batch_events_length.
  assert (concat batches = events) as Hconcat.
  { apply concat_groups; lia. }
  split_and!.
  - lia.
  - done.
  - unfold batches. rewrite chunks_50_length, Hlen. f_equal. lia.
  - apply chunks_50_sizes.
  - intros ->. unfold batches. rewrite chunks_50_spec, Hlen.
    change ((Z.to_nat 120 + 49) / 50)%nat with 3%nat. cbn [seq fmap list_fmap].
    rewrite !length_take, !length_drop, Hlen. repeat f_equal; lia.
  - destruct (batch_scrobble_run artist title count start_date s)
      as (outs & s' & Hsub & Hrun).
    exists outs, s', (sum_credited outs).
    split_and!; [done|by eapply submitted_length|done|].
    intros Hfull. rewrite (sum_credited_full _ _ Hfull), Hconcat. lia.
Qed.

(** C2.  For [count ≥ 1] and the base timestamp of the run (the start
    date when one is given, the clock otherwise), the timestamps are the
    [count] values [base − i·180], [i] in [0..count−1], in ascending order:
    the entry at position [j] is [base − (count−1−j)·180], consecutive
    entries differ by exactly 180, so the sequence is strictly increasing,
    and the last and largest entry is the base timestamp.  They are the
    timestamps of the events that [batch_scrobble] submits. *)
Theorem batch_timestamps_spaced (artist title : string) (count : Z)
    (start_date : option Z) (s : state) :
  1 ≤ count →
  let base := default (clock s) start_date in
  let ts := batch_timestamps base count in
  Z.of_nat (length ts) = count
  ∧ ts ≡ₚ (fun i : nat => base - Z.of_nat i * 180) <$> seq 0 (Z.to_nat count)
  ∧ Sorted Z.le ts
  ∧ (∀ j : nat, Z.of_nat j < count →
       ts !! j = Some (base - (count - 1 - Z.of_nat j) * 180))
  ∧ (∀ (j : nat) (t t' : Z),
       ts !! j = Some t → ts !! S j = Some t' → t' - t = 180 ∧ t < t')
  ∧ last ts = Some base
  ∧ (∀ t, t ∈ ts → t ≤ base)
  ∧ ∃ (outs : list (result value)) (s' : state),
      submitted count (chunks 50 (batch_events artist title count base)) 0 s outs s'
      ∧ batch_scrobble artist title count start_date s = (Ok (sum_credited outs), s')
      ∧ timestamp <$> concat (chunks 50 (batch_events artist title count base)) = ts.
Proof.
  intros Hcount base ts.
  assert (∀ j : nat, Z.of_nat j < count →
            ts !! j = Some (base - (count - 1 - Z.of_nat j) * 180)) as Hlookup.
  { intros j Hj. apply batch_timestamps_lookup. lia. }
  assert (length ts = Z.to_nat count) as Hlen by apply batch_timestamps_length.
  split_and!.
  - lia.
  - unfold ts. rewrite batch_timestamps_reverse. apply reverse_Permutation.
  - apply (Sorted_merge_sort Z.le).
  - done.
  - intros j t t' Hj HSj.
    pose proof (lookup_lt_Some _ _ _ HSj) as Hlt.
    rewrite Hlookup in Hj by lia. rewrite Hlookup in HSj by lia.
    injection Hj as <-. injection HSj as <-. lia.
  - rewrite last_lookup, Hlen.
    replace (Nat.pred (Z.to_nat count)) with (Z.to_nat (count - 1)) by lia.
    rewrite Hlookup by lia. f_equal. lia.
  - intros t [j Hj]%list_elem_of_lookup.
    pose proof (lookup_lt_Some _ _ _ Hj) as Hlt.
    rewrite Hlookup in Hj by lia. injection Hj as <-. lia.
  - destruct (batch_scrobble_run artist title count start_date s)
      as (outs & s' & Hsub & Hrun).
    exists outs, s'. split_and!; [done..|].
    unfold chunks. rewrite concat_groups by lia.
    unfold batch_events. rewrite <- list_fmap_compose. apply list_fmap_id.
Qed.

(** C4.  A chunk whose submission raises does not stop the run: every
    chunk is submitted, in order, whatever the outcomes of the chunks
    before it, and the run returns a number, never an exception.  When the
    responses of the submissions that succeeded report, in their field
    [scrobbles.@attr.accepted], the accepted counts [ns], this number is
    the sum of [ns]: the chunks that raised add nothing to it and take
    nothing from it. *)
Theorem batch_scrobble_partial_failure (artist title : string) (count : Z)
    (start_date : option Z) (s : state) :
  let batches :=
    chunks 50 (batch_events artist title count (default (clock s) start_date)) in
  ∃ (outs : list (result value)) (s' : state) (total : Z),
    submitted count batches 0 s outs s'
    ∧ length outs = length batches
    ∧ batch_scrobble artist title count start_date s = (Ok total, s')
    ∧ (∀ ns : list Z, accepted_counts outs ns → total = foldr Z.add 0 ns).
Proof.
  intros batches.
  destruct (batch_scrobble_run artist title count start_date s)
    as (outs & s' & Hsub & Hrun).
  exists outs, s', (sum_credited outs).
  split_and!; [done|by eapply submitted_length|done|].
  apply sum_credited_accepted_counts.
Qed.

Lemma accepted_count_missing (res : value) :
  nested_accepted res = None → credited (Ok res) = 0.
Proof.
  unfold nested_accepted, credited, accepted_count.
  destruct res as [| | | | | |d]; try done. cbn.
  destruct (dict_get d "scrobbles") as [[| | | | | |d1]|]; try done. cbn.
  destruct (dict_get d1 "@attr") as [[| | | | | |d2]|]; try done. cbn.
  by intros ->.
Qed.

(** C8.  A submission that succeeds with a response without the nested
    field [scrobbles.@attr.accepted] counts for zero: the loop body returns
    normally with the running count unchanged, and the loop goes on with
    the remaining chunks. *)
Theorem missing_accepted_counts_zero (count : Z) (scrobbles : list scrobble)
    (i total : Z) (rest : list Z) (s s1 : state) (res : value) :
  scrobble_tracks (py_slice scrobbles i (i + 50)) s = (Ok res, s1) →
  nested_accepted res = None →
  let s2 := after_chunk (chunk_log count total (Ok res)) s1 in
  credited (Ok res) = 0
  ∧ batch_body count scrobbles i total s = (Ok total, s2)
  ∧ for_fold (i :: rest) total (batch_body count scrobbles) s
    = for_fold rest total (batch_body count scrobbles) s2.
Proof.
  intros Hsub Hmissing s2.
  pose proof (accepted_count_missing res Hmissing) as Hzero.
  pose proof (batch_body_run count scrobbles i total s s1 (Ok res) Hsub) as Hbody.
  rewrite Hzero, Z.add_0_r in Hbody.
  split_and!; [done..|].
  cbn [for_fold]. by erewrite bind_run by exact Hbody.
Qed.

End batch.

(** ** The model at work *)

(** the test vectors of RFC 1321 *)
Example md5_test_vectors :
  md5_hexdigest EmptyString = "d41d8cd98f00b204e9800998ecf8427e"
  ∧ md5_hexdigest "abc" = "900150983cd24fb0d6963f7d28e17f72"
  ∧ md5_hexdigest "message digest" = "f96b697d7cb7938d525a2f31aaf161d0"
  ∧ md5_hexdigest
      "12345678901234567890123456789012345678901234567890123456789012345678901234567890"
    = "57edf4a22be3c955ac49da2e2107b67a".
Proof. by vm_compute. Qed.

(** the signature of the sample parameters, as CPython computes it *)
Example get_signature_sample :
  (get_signature (rt:=ascii_runtime) (cfg:=sample_settings) 0%nat
     (with_heap [sample_params])).1
  = Ok "3539300654c763dc9438f4fa1db91b8a".
Proof. by vm_compute. Qed.

(** popping in place, unlike signing, changes the dict of the caller *)
Example obj_pop_mutates :
  heap (obj_pop 0%nat "format" (with_heap [sample_params])).2 !! 0%nat
  = Some (dict_pop sample_params "format")
  ∧ dict_get (dict_pop sample_params "format") "format" = None
  ∧ dict_get sample_params "format" = Some (VStr "json").
Proof. by vm_compute. Qed.

(** 120 events, every chunk accepted in full *)
Example batch_scrobble_120 :
  (batch_scrobble (rt:=ascii_runtime) (cfg:=source_settings) "Artist A" "Track B" 120 None
     (sample_state [Ok (accepted_response 200 50); Ok (accepted_response 200 50);
                    Ok (accepted_response 200 20)] [])).1
  = Ok 120.
Proof. by vm_compute. Qed.

(** 120 events, the second chunk answered by a server error, the third
    still submitted *)
Example batch_scrobble_second_chunk_fails :
  let out :=
    batch_scrobble (rt:=ascii_runtime) (cfg:=source_settings) "Artist A" "Track B" 120 None
      (sample_state [Ok (accepted_response 200 50); Ok (accepted_response 500 50);
                     Ok (accepted_response 200 20)] []) in
  out.1 = Ok 70
  ∧ net out.2 = []
  ∧ List.filter (fun e => match e with EvLog _ => true | _ => false end) (trace out.2)
    = [EvLog (InfoScrobbled 50 120); EvLog (ErrorBatchFailed (HTTPError 500));
       EvLog (InfoScrobbled 70 120)].
Proof. by vm_compute. Qed.

(** a credentials file with a key, and one whose JSON is a list *)
Example load_session_samples :
  (load_session
     (set_cred_file (Some (Ok (VDict [("session_key", VStr "abc")]))) (sample_state [] []))).1
  = Ok (VStr "abc")
  ∧ (load_session
       (set_cred_file (Some (Ok (VList [VStr "session_key"]))) (sample_state [] [])))
    = (Ok VNone,
       set_trace [EvLog (ErrorLoadingCredentials TypeError)]
         (set_cred_file (Some (Ok (VList [VStr "session_key"]))) (sample_state [] []))).
Proof. by vm_compute. Qed.

(** ** Witnesses *)

Lemma sample_params_wf : dict_wf sample_params.
Proof. apply (bool_decide_unpack _). by vm_compute. Defined.

Lemma sample_params_reordered_wf : dict_wf sample_params_reordered.
Proof. apply (bool_decide_unpack _). by vm_compute. Defined.

(** 120 events, the three chunks answered with 50, 50 and 20 accepted *)
Lemma batch_scrobble_chunks_witness :
  let s := sample_state [Ok (accepted_response 200 50); Ok (accepted_response 200 50);
                         Ok (accepted_response 200 20)] [] in
  0 ≤ 120
  ∧ length <$> chunks 50 (batch_events "Artist A" "Track B" 120 1700000000)
    = [50; 50; 20]%nat
  ∧ (batch_scrobble (rt:=ascii_runtime) (cfg:=source_settings)
       "Artist A" "Track B" 120 None s).1 = Ok 120.
Proof.
  intros s. assert (0 ≤ 120) as Hcount by lia.
  pose proof (batch_scrobble_chunks (rt:=ascii_runtime) (cfg:=source_settings)
                "Artist A" "Track B" 120 None s Hcount)
    as (_ & _ & _ & _ & Hsizes & outs & s' & total & Hsub & _ & Hrun & Hfull).
  split_and!; [exact Hcount|exact (Hsizes eq_refl)|].
  rewrite Hrun. cbn [fst]. f_equal. apply Hfull.
  apply submitted_submit_all, (f_equal fst) in Hsub.
  vm_compute in Hsub. subst outs.
  vm_compute. repeat constructor; eexists; (split; [reflexivity|vm_compute; reflexivity]).
Defined.

(** 120 events, the second chunk answered by a server error: the first
    and the third count, 50 and 20 *)
Lemma batch_scrobble_partial_failure_witness :
  let s := sample_state [Ok (accepted_response 200 50); Ok (accepted_response 500 50);
                         Ok (accepted_response 200 20)] [] in
  (batch_scrobble (rt:=ascii_runtime) (cfg:=source_settings)
     "Artist A" "Track B" 120 None s).1 = Ok 70.
Proof.
  intros s.
  pose proof (batch_scrobble_partial_failure (rt:=ascii_runtime) (cfg:=source_settings)
                "Artist A" "Track B" 120 None s)
    as (outs & s' & total & Hsub & _ & Hrun & Hsum).
  rewrite Hrun. cbn [fst]. f_equal. apply (Hsum [50; 20]).
  apply submitted_submit_all, (f_equal fst) in Hsub.
  vm_compute in Hsub. subst outs.
  repeat constructor.
Defined.

Lemma batch_timestamps_spaced_witness :
  1 ≤ 3
  ∧ last (batch_timestamps 1700000000 3) = Some 1700000000.
Proof.
  assert (1 ≤ 3) as Hcount by lia.
  split; [exact Hcount|].
  pose proof (batch_timestamps_spaced (rt:=ascii_runtime) (cfg:=source_settings)
                "Artist A" "Track B" 3 None (sample_state [] []) Hcount)
    as (_ & _ & _ & _ & _ & Hlast & _).
  exact Hlast.
Defined.

Lemma get_signature_signed_material_witness :
  heap (with_heap [sample_params]) !! 0%nat = Some sample_params
  ∧ dict_wf sample_params
  ∧ (get_signature (rt:=ascii_runtime) (cfg:=sample_settings) 0%nat
       (with_heap [sample_params])).1
    = Ok (md5_hexdigest (signed_material (rt:=ascii_runtime) (cfg:=sample_settings)
                           sample_params)).
Proof.
  split; [reflexivity|]. split; [apply sample_params_wf|].
  pose proof (get_signature_signed_material (rt:=ascii_runtime) (cfg:=sample_settings)
                0%nat sample_params (with_heap [sample_params])
                eq_refl sample_params_wf) as [Hsig _].
  exact Hsig.
Defined.

Lemma get_signature_insertion_order_witness :
  heap (with_heap [sample_params]) !! 0%nat = Some sample_params
  ∧ heap (with_heap [[]; sample_params_reordered]) !! 1%nat = Some sample_params_reordered
  ∧ dict_wf sample_params
  ∧ dict_wf sample_params_reordered
  ∧ (∀ k, dict_get sample_params k = dict_get sample_params_reordered k)
  ∧ (get_signature (rt:=ascii_runtime) (cfg:=sample_settings) 0%nat
       (with_heap [sample_params])).1
    = (get_signature (rt:=ascii_runtime) (cfg:=sample_settings) 1%nat
         (with_heap [[]; sample_params_reordered])).1.
Proof.
  assert (∀ k, dict_get sample_params k = dict_get sample_params_reordered k) as Hsame.
  { intros k. unfold sample_params, sample_params_reordered. cbn.
    repeat case_decide; simplify_eq; reflexivity. }
  split_and!; [reflexivity | reflexivity | apply sample_params_wf
              | apply sample_params_reordered_wf | exact Hsame |].
  exact (get_signature_insertion_order (rt:=ascii_runtime) (cfg:=sample_settings)
           0%nat 1%nat sample_params sample_params_reordered
           (with_heap [sample_params]) (with_heap [[]; sample_params_reordered])
           eq_refl eq_refl sample_params_wf sample_params_reordered_wf Hsame).
Defined.

Lemma get_signature_no_side_effect_witness :
  heap (with_heap [sample_params]) !! 0%nat = Some sample_params
  ∧ heap (get_signature (rt:=ascii_runtime) (cfg:=sample_settings) 0%nat
            (with_heap [sample_params])).2 !! 0%nat
    = Some sample_params.
Proof.
  split; [reflexivity|].
  pose proof (get_signature_no_side_effect (rt:=ascii_runtime) (cfg:=sample_settings)
                0%nat sample_params (with_heap [sample_params]) eq_refl) as [Hsame _].
  exact Hsame.
Defined.

Lemma read_job_clamps_count_witness :
  let s := sample_state [] ["Artist A"; "Track B"; "5000"; "n"] in
  let j := {| job_artist := "Artist A"; job_title := "Track B"; job_count := 1000;
              job_start_date := None |} in
  read_job (rt:=ascii_runtime) s = (Ok (Some j), (read_job (rt:=ascii_runtime) s).2)
  ∧ ∃ (entered : string) (n : Z),
      stdin s !! 2%nat = Some entered
      ∧ int_of_str (Runtime:=ascii_runtime) entered = Ok n
      ∧ job_count j = Z.min 1000 (Z.max 1 n).
Proof.
  intros s j.
  assert (read_job (rt:=ascii_runtime) s
          = (Ok (Some j), (read_job (rt:=ascii_runtime) s).2)) as Hrun.
  { vm_compute. reflexivity. }
  split; [exact Hrun|].
  destruct (read_job_clamps_count (rt:=ascii_runtime) (cfg:=source_settings)
              s _ j Hrun) as (entered & n & H1 & H2 & H3 & _).
  exists entered, n. split_and!; assumption.
Defined.

Lemma submitters_and_http_status_witness :
  let s := sample_state [Ok (accepted_response 503 0)] [] in
  ensure_auth (rt:=ascii_runtime) (cfg:=source_settings) s = (Ok tt, s)
  ∧ net s = [Ok (accepted_response 503 0)]
  ∧ ((∃ status,
        (scrobble_tracks (rt:=ascii_runtime) (cfg:=source_settings) [sample_event] s).1
        = Raise (HTTPError status))
       ↔ 400 ≤ status_code (accepted_response 503 0) < 600).
Proof.
  intros s. split; [reflexivity|]. split; [reflexivity|].
  pose proof (submitters_and_http_status (rt:=ascii_runtime) (cfg:=source_settings)
                [sample_event] "Artist A" "Track B" None s s (accepted_response 503 0) []
                eq_refl eq_refl) as [Hiff _].
  exact Hiff.
Defined.

Lemma missing_accepted_counts_zero_witness :
  let s := sample_state [Ok {| status_code := 200; body := Some (VDict []) |}] [] in
  let out := scrobble_tracks (rt:=ascii_runtime) (cfg:=source_settings)
               (py_slice [sample_event] 0 (0 + 50)) s in
  out = (Ok (VDict []), out.2)
  ∧ nested_accepted (VDict []) = None
  ∧ batch_body (rt:=ascii_runtime) (cfg:=source_settings) 1 [sample_event] 0 7 s
    = (Ok 7, after_chunk (chunk_log (rt:=ascii_runtime) 1 7 (Ok (VDict []))) out.2).
Proof.
  intros s out.
  assert (out = (Ok (VDict []), out.2)) as Hrun by (vm_compute; reflexivity).
  split; [exact Hrun|]. split; [reflexivity|].
  pose proof (missing_accepted_counts_zero (rt:=ascii_runtime) (cfg:=source_settings)
                1 [sample_event] 0 7 [] s out.2 (VDict []) Hrun eq_refl)
    as (_ & Hbody & _).
  exact Hbody.
Defined.

(** ** C7 as the specification states it *)

(** A response with status 304 is not a 2xx response, and [scrobble_tracks]
    does not raise on it: [raise_for_status] passes every status below 400. *)
Lemma scrobble_tracks_status_304 :
  let r := accepted_response 304 1 in
  let s := sample_state [Ok r] [] in
  ¬ ((∃ status,
        (scrobble_tracks (rt:=ascii_runtime) (cfg:=source_settings) [sample_event] s).1
        = Raise (HTTPError status))
     ↔ ¬ 200 ≤ status_code r < 300).
Proof.
  intros r s [_ Hraises].
  destruct Hraises as [status Hstatus]; [cbn; lia|].
  vm_compute in Hstatus. discriminate Hstatus.
Qed.

(** ** More runs: saving the credentials, the handshake, the wire *)

Section saving.
Context {rt : Runtime} {cfg : Settings}.

Lemma save_credentials_run (key : value) (s : state) :
  save_credentials key s
  = (Ok tt,
     if cred_writable s
     then set_cred_file (Some (Ok (VDict [("session_key", key)]))) s
     else set_trace (trace s ++ [EvLog (ErrorSavingCredentials OSError)]) s).
Proof. unfold save_credentials. run_M. by destruct (cred_writable s). Qed.

Lemma ensure_auth_authenticated (s : state) :
  py_truthy (session_key s) = true → ensure_auth s = (Ok tt, s).
Proof. intros Hkey. unfold ensure_auth. run_M. by rewrite Hkey. Qed.

Lemma bind_Ok_inv {A B} (m : M A) (f : A → M B) (s s' : state) (b : B) :
  (m ≫= f) s = (Ok b, s') → ∃ a s1, m s = (Ok a, s1) ∧ f a s1 = (Ok b, s').
Proof.
  unfold mbind, M_bind. destruct (m s) as [[a|e] s1]; [|done]. eauto.
Qed.

End saving.

(** ** Frames: what a computation leaves as it was

    The rules are proved once, for a relation [R] that is a preorder and is
    insensitive to some of the components of the state; each rule asks only
    for the insensitivities it needs. *)

Section frames.
Context {rt : Runtime} {cfg : Settings}.
Variable R : relation state.
Hypothesis R_refl : ∀ s, R s s.
Hypothesis R_trans : ∀ s1 s2 s3, R s1 s2 → R s2 s3 → R s1 s3.
Hypothesis R_trace : ∀ s t, R s (set_trace t s).
Hypothesis R_heap : ∀ s h, R s (set_heap h s).
Hypothesis R_net : ∀ s n, R s (set_net n s).
Hypothesis R_stdin : ∀ s line rest, stdin s = line :: rest → R s (set_stdin rest s).
Hypothesis R_clock : ∀ s c, R s (set_clock c s).
Hypothesis R_session_key : ∀ s v, R s (set_session_key v s).
Hypothesis R_cred_file : ∀ s f, R s (set_cred_file f s).

Lemma keeps_mret {A} (a : A) : keeps R (mret a).
Proof using R_refl. intros s. apply R_refl. Qed.

Lemma keeps_raise {A} (e : exn) : keeps R (raise (A:=A) e).
Proof using R_refl. intros s. apply R_refl. Qed.

Lemma keeps_lift {A} (r : result A) : keeps R (lift r).
Proof using R_refl. intros s. apply R_refl. Qed.

Lemma keeps_gets {A} (f : state → A) : keeps R (gets f).
Proof using R_refl. intros s. apply R_refl. Qed.

Lemma keeps_bind {A B} (m : M A) (f : A → M B) :
  keeps R m → (∀ a, keeps R (f a)) → keeps R (m ≫= f).
Proof using R_trans.
  intros Hm Hf s. specialize (Hm s). unfold mbind, M_bind.
  destruct (m s) as [[a|e] s1]; [|done].
  eapply R_trans; [exact Hm|]. apply Hf.
Qed.

Lemma keeps_try_except {A} (m : M A) (h : exn → M A) :
  keeps R m → (∀ e, keeps R (h e)) → keeps R (try_except m h).
Proof using R_trans.
  intros Hm Hh s. specialize (Hm s). unfold try_except.
  destruct (m s) as [[a|e] s1]; [done|].
  eapply R_trans; [exact Hm|]. apply Hh.
Qed.

Lemma keeps_for_fold {A B} (l : list A) (acc : B) (body : A → B → M B) :
  (∀ x b, keeps R (body x b)) → keeps R (for_fold l acc body).
Proof using R_refl R_trans.
  intros Hbody. revert acc. induction l as [|x l IH]; intros acc; cbn [for_fold].
  - apply keeps_mret.
  - apply keeps_bind; [apply Hbody | intros b; apply IH].
Qed.

Lemma keeps_mapM {A B} (f : A → M B) (l : list A) :
  (∀ x, keeps R (f x)) → keeps R (mapM f l).
Proof using R_refl R_trans.
  intros Hf. induction l as [|x l IH]; cbn [mapM].
  - apply keeps_mret.
  - apply keeps_bind; [apply Hf|]. intros y.
    apply keeps_bind; [apply IH|]. intros k. apply keeps_mret.
Qed.

Lemma keeps_emit (e : event) : keeps R (emit e).
Proof using R_trace. intros s. apply R_trace. Qed.

Lemma keeps_input (prompt : string) : keeps R (input prompt).
Proof using R_trans R_trace R_stdin.
  intros s. rewrite input_run. destruct (stdin s) as [|line rest] eqn:Hin; cbn.
  - apply R_trace.
  - eapply R_trans; [apply R_trace|]. by eapply R_stdin.
Qed.

Lemma keeps_time_sleep (secs : Z) : keeps R (time_sleep secs).
Proof using R_trans R_trace R_clock.
  intros s. unfold time_sleep. run_M. cbn.
  eapply R_trans; [apply R_trace|]. apply R_clock.
Qed.

Lemma keeps_dict_new (d : dict value) : keeps R (dict_new d).
Proof using R_heap. intros s. apply R_heap. Qed.

Lemma keeps_deref (l : loc) : keeps R (deref l).
Proof using R_refl. intros s. apply R_refl. Qed.

Lemma keeps_obj_setitem (l : loc) (k : string) (v : value) :
  keeps R (obj_setitem l k v).
Proof using R_heap. intros s. apply R_heap. Qed.

Lemma keeps_obj_pop (l : loc) (k : string) : keeps R (obj_pop l k).
Proof using R_heap. intros s. apply R_heap. Qed.

Lemma keeps_obj_copy (l : loc) : keeps R (obj_copy l).
Proof using R_heap. intros s. apply R_heap. Qed.

Lemma keeps_obj_keys (l : loc) : keeps R (obj_keys l).
Proof using R_refl. intros s. apply R_refl. Qed.

Lemma keeps_obj_getitem (l : loc) (k : string) : keeps R (obj_getitem l k).
Proof using R_refl.
  intros s. unfold obj_getitem, deref. run_M.
  destruct (dict_get _ k); apply R_refl.
Qed.

Lemma keeps_requests_send (m : http_method) (url : string) (p : loc) :
  keeps R (requests_send m url p).
Proof using R_trans R_trace R_net.
  intros s. unfold requests_send, deref. run_M. cbn.
  destruct (net s) as [|[r|e] rest]; cbn.
  - apply R_trace.
  - eapply R_trans; [apply R_trace|]. apply R_net.
  - eapply R_trans; [apply R_trace|]. apply R_net.
Qed.

Lemma keeps_raise_for_status (r : response) : keeps R (raise_for_status r).
Proof using R_refl.
  unfold raise_for_status.
  destruct ((400 <=? status_code r) && (status_code r <? 600));
    [apply keeps_raise | apply keeps_mret].
Qed.

Lemma keeps_response_json (r : response) : keeps R (response_json r).
Proof using R_refl.
  unfold response_json. destruct (body r); [apply keeps_mret | apply keeps_raise].
Qed.

Lemma keeps_set_session_key (v : value) : keeps R (modify (set_session_key v)).
Proof using R_session_key. intros s. apply R_session_key. Qed.

Lemma keeps_set_cred_file (f : option (result value)) :
  keeps R (modify (set_cred_file f)).
Proof using R_cred_file. intros s. apply R_cred_file. Qed.

(** one step of the proof that a composite computation keeps [R] *)
Ltac keeps_step :=
  first
    [ apply keeps_emit | apply keeps_input | apply keeps_time_sleep
    | apply keeps_dict_new | apply keeps_obj_setitem | apply keeps_obj_pop
    | apply keeps_obj_copy | apply keeps_obj_keys | apply keeps_obj_getitem
    | apply keeps_requests_send | apply keeps_raise_for_status
    | apply keeps_response_json | apply keeps_set_session_key
    | apply keeps_set_cred_file
    | apply keeps_mret | apply keeps_raise | apply keeps_lift | apply keeps_gets
    | apply keeps_for_fold; intros ? ?
    | apply keeps_mapM; intros ?
    | apply keeps_try_except; [|intros ?]
    | apply keeps_bind; [|intros ?]
    | match goal with
      | |- keeps _ (if ?b then _ else _) => destruct b
      | |- keeps _ (match ?x with _ => _ end) => destruct x
      end
    | progress cbv beta zeta ].

Lemma keeps_get_signature (p : loc) : keeps R (get_signature p).
Proof using R_refl R_trans R_heap. unfold get_signature. repeat keeps_step. Qed.

Lemma keeps_get_token : keeps R get_token.
Proof using R_refl R_trans R_trace R_heap R_net.
  unfold get_token. repeat keeps_step.
Qed.

Lemma keeps_authorize_token (token : value) : keeps R (authorize_token token).
Proof using R_refl R_trans R_trace R_stdin.
  unfold authorize_token, print, webbrowser_open. repeat keeps_step.
Qed.

Lemma keeps_save_credentials (key : value) : keeps R (save_credentials key).
Proof using R_refl R_trans R_trace R_cred_file.
  unfold save_credentials, logger_error. repeat keeps_step.
Qed.

Lemma keeps_get_session (token : value) : keeps R (get_session token).
Proof using R_refl R_trans R_trace R_heap R_net R_cred_file.
  unfold get_session. repeat keeps_step.
Qed.

Lemma keeps_ensure_auth : keeps R ensure_auth.
Proof using R_refl R_trans R_trace R_heap R_net R_stdin R_session_key R_cred_file.
  unfold ensure_auth, print. repeat keeps_step;
    first [apply keeps_get_token | apply keeps_authorize_token | apply keeps_get_session].
Qed.

Lemma keeps_add_scrobble (p : loc) (item : nat * scrobble) (u : unit) :
  keeps R (add_scrobble p item u).
Proof using R_trans R_heap. destruct item. unfold add_scrobble. repeat keeps_step. Qed.

Lemma keeps_scrobble_tracks (scrobbles : list scrobble) :
  keeps R (scrobble_tracks scrobbles).
Proof using R_refl R_trans R_trace R_heap R_net R_stdin R_session_key R_cred_file.
  unfold scrobble_tracks.
  repeat first
    [ apply keeps_ensure_auth | apply keeps_add_scrobble | apply keeps_get_signature
    | keeps_step ].
Qed.

(** the same, past the functions already dealt with *)
Ltac keeps_call :=
  first
    [ apply keeps_scrobble_tracks | apply keeps_ensure_auth
    | apply keeps_get_signature | keeps_step ].

Lemma raises_keep_weaken {A} (m : M A) : keeps R m → raises_keep R m.
Proof using Type. intros Hm s e s' Hrun. specialize (Hm s). by rewrite Hrun in Hm. Qed.

Lemma raises_keep_bind {A B} (m : M A) (f : A → M B) :
  keeps R m → (∀ a, raises_keep R (f a)) → raises_keep R (m ≫= f).
Proof using R_trans.
  intros Hm Hf s e s'. specialize (Hm s). unfold mbind, M_bind.
  destruct (m s) as [[a|e1] s1].
  - intros Hrun. eapply R_trans; [exact Hm|]. by eapply Hf.
  - by intros [= <- <-].
Qed.

(** after [m], a continuation that cannot raise *)
Lemma raises_keep_bind_total {A B} (m : M A) (f : A → M B) :
  raises_keep R m → (∀ a s, ∃ b s', f a s = (Ok b, s')) → raises_keep R (m ≫= f).
Proof using Type.
  intros Hm Hf s e s'. unfold mbind, M_bind.
  destruct (m s) as [[a|e1] s1] eqn:Hrun.
  - destruct (Hf a s1) as (b & s2 & ->). done.
  - intros [= <- <-]. by eapply Hm.
Qed.

(** [get_session] writes the credentials only when nothing can fail any more *)
Lemma raises_keep_get_session (token : value) : raises_keep R (get_session token).
Proof using R_refl R_trans R_trace R_heap R_net.
  unfold get_session.
  do 7 (apply raises_keep_bind; [solve [repeat keeps_call] | intros ?]).
  match goal with |- raises_keep _ (if ?b then _ else _) => destruct b end.
  - do 2 (apply raises_keep_bind; [solve [repeat keeps_call] | intros ?]).
    intros s e s'. unfold mbind, M_bind. by rewrite save_credentials_run.
  - apply raises_keep_weaken, keeps_raise.
Qed.

(** [ensure_auth] sets the session key only when nothing can fail any more *)
Lemma raises_keep_ensure_auth : raises_keep R ensure_auth.
Proof using R_refl R_trans R_trace R_heap R_net R_stdin.
  unfold ensure_auth.
  apply raises_keep_bind; [apply keeps_gets | intros key].
  destruct (negb (py_truthy key)); [|apply raises_keep_weaken, keeps_mret].
  apply raises_keep_bind; [apply keeps_get_token | intros token].
  apply raises_keep_bind; [apply keeps_authorize_token | intros _].
  apply raises_keep_bind_total; [apply raises_keep_get_session|].
  intros key' s. by eexists _, _.
Qed.

Lemma keeps_batch_body (count : Z) (scrobbles : list scrobble) (i total : Z) :
  keeps R (batch_body count scrobbles i total).
Proof using All.
  unfold batch_body, logger_info, logger_error. repeat keeps_call.
Qed.

Lemma keeps_batch_scrobble (artist title : string) (count : Z) (start_date : option Z) :
  keeps R (batch_scrobble artist title count start_date).
Proof using All.
  unfold batch_scrobble, time_time.
  repeat first [apply keeps_batch_body | keeps_call].
Qed.

Lemma keeps_read_job : keeps R read_job.
Proof using R_refl R_trans R_trace R_stdin.
  unfold read_job, print, time_time. repeat keeps_step.
Qed.

Lemma keeps_main_iteration : keeps R main_iteration.
Proof using All.
  unfold main_iteration, print.
  repeat first [apply keeps_read_job | apply keeps_batch_scrobble | keeps_call].
Qed.

End frames.

(** ** The keys of a batch request *)

Lemma string_length_app (s1 s2 : string) :
  String.length (s1 +:+ s2) = (String.length s1 + String.length s2)%nat.
Proof.
  induction s1 as [|c s1 IH]; [done|].
  change (S (String.length (s1 +:+ s2)) = S (String.length s1 + String.length s2)).
  by rewrite IH.
Qed.

Lemma string_app_inj_r (t s1 s2 : string) : s1 +:+ t = s2 +:+ t → s1 = s2.
Proof.
  revert s2. induction s1 as [|c1 s1 IH]; intros [|c2 s2] Heq; [done|..].
  - apply (f_equal String.length) in Heq.
    rewrite !string_length_app in Heq. cbn in Heq. lia.
  - apply (f_equal String.length) in Heq.
    rewrite !string_length_app in Heq. cbn in Heq. lia.
  - change (String c1 (s1 +:+ t) = String c2 (s2 +:+ t)) in Heq.
    injection Heq as -> Heq. f_equal. by apply IH.
Qed.

Lemma indexed_inj (name : string) (i j : nat) :
  indexed name i = indexed name j → i = j.
Proof.
  unfold indexed. intros Heq.
  apply (inj (String.app name)), (inj (String.app "[")) in Heq.
  by apply string_app_inj_r, (inj pretty) in Heq.
Qed.

(** the three keys of the event at position [idx] *)
Lemma event_params_keys (idx : nat) (sc : scrobble) :
  dict_keys (event_params idx sc)
  = [indexed "artist" idx; indexed "track" idx; indexed "timestamp" idx].
Proof. done. Qed.

Lemma event_key_cases (idx : nat) (sc : scrobble) (k : string) :
  k ∈ dict_keys (event_params idx sc) →
  k = indexed "artist" idx ∨ k = indexed "track" idx ∨ k = indexed "timestamp" idx.
Proof. rewrite event_params_keys, !elem_of_cons, elem_of_nil. tauto. Qed.

(** a key of an event is no key of another event, and none of the fixed
    keys of a request *)
Lemma event_keys_disjoint (i j : nat) (sc sc' : scrobble) (k : string) :
  i ≠ j → k ∈ dict_keys (event_params i sc) → k ∉ dict_keys (event_params j sc').
Proof.
  intros Hne Hi Hj.
  apply event_key_cases in Hi. apply event_key_cases in Hj.
  destruct Hi as [->|[->| ->]], Hj as [Hj|[Hj|Hj]];
    first [ by apply indexed_inj in Hj
          | exfalso; revert Hj; unfold indexed; cbv [String.append]; discriminate ].
Qed.

Lemma event_key_not_fixed (idx : nat) (sc : scrobble) (k : string) :
  k ∈ dict_keys (event_params idx sc) →
  k ∉ ["method"; "api_key"; "sk"; "api_sig"; "format"].
Proof.
  intros Hk Hin. apply event_key_cases in Hk.
  repeat (apply elem_of_cons in Hin as [Hin|Hin]);
    [..|by apply elem_of_nil in Hin];
    destruct Hk as [->|[->| ->]];
    revert Hin; unfold indexed; cbv [String.append]; discriminate.
Qed.

Lemma dict_set_fresh {V} (d : dict V) (k : string) (v : V) :
  k ∉ dict_keys d → dict_set d k v = d ++ [(k, v)].
Proof.
  unfold dict_keys. induction d as [|[k0 v0] d IH]; csimpl; [done|].
  intros Hnotin. rewrite decide_False by (intros ->; apply Hnotin; by left).
  rewrite IH; [done|]. intros ?. apply Hnotin. by right.
Qed.

Lemma dict_keys_app {V} (d1 d2 : dict V) :
  dict_keys (d1 ++ d2) = dict_keys d1 ++ dict_keys d2.
Proof. unfold dict_keys. apply fmap_app. Qed.

(** ** What goes on the wire *)

Section wire.
Context {rt : Runtime} {cfg : Settings}.

(** the loop over the events appends the parameters of each event *)
Lemma fill_params_exact (p : loc) (items : list (nat * scrobble)) (d : dict value)
    (s : state) :
  heap s !! p = Some d →
  dict_wf d →
  NoDup items.*1 →
  (∀ k, k ∈ dict_keys d → ∀ idx sc, idx ∈ items.*1 →
        k ∉ dict_keys (event_params idx sc)) →
  let d' := d ++ mjoin ((fun item => event_params item.1 item.2) <$> items) in
  dict_wf d'
  ∧ for_fold items tt (add_scrobble p) s = (Ok tt, set_heap (<[p := d']> (heap s)) s).
Proof.
  revert d s. induction items as [|[i sc] items IH]; intros d s Hp Hwf Hnd Hfresh d'.
  - unfold d'. csimpl. rewrite app_nil_r. split; [done|].
    unfold mret, M_ret. rewrite list_insert_id by done. by destruct s.
  - pose proof (lookup_lt_Some _ _ _ Hp) as Hlt.
    apply NoDup_cons in Hnd as [Hi Hnd].
    assert (∀ name, name ∈ ["artist"; "track"; "timestamp"] →
                    indexed name i ∉ dict_keys d) as Hd.
    { intros name Hname Hin. apply (Hfresh _ Hin i sc); [by left|].
      rewrite event_params_keys. revert Hname. rewrite !elem_of_cons, !elem_of_nil.
      intros [->|[->|[->|[]]]]; tauto. }
    assert (dict_set (dict_set (dict_set d (indexed "artist" i) (VStr (artist sc)))
                        (indexed "track" i) (VStr (track sc)))
              (indexed "timestamp" i) (VStr (pretty (timestamp sc)))
            = d ++ event_params i sc) as Hsets.
    { rewrite (dict_set_fresh d) by (apply Hd; rewrite !elem_of_cons; tauto).
      rewrite (dict_set_fresh (d ++ [_]) (indexed "track" i)); last first.
      { rewrite dict_keys_app, elem_of_app. intros [Hin|Hin].
        - revert Hin. apply Hd. rewrite !elem_of_cons; tauto.
        - apply list_elem_of_singleton in Hin. revert Hin.
          unfold indexed. cbv [String.append]. discriminate. }
      rewrite (dict_set_fresh ((d ++ [_]) ++ [_]) (indexed "timestamp" i)); last first.
      { rewrite !dict_keys_app, !elem_of_app. intros [[Hin|Hin]|Hin].
        - revert Hin. apply Hd. rewrite !elem_of_cons; tauto.
        - apply list_elem_of_singleton in Hin. revert Hin.
          unfold indexed. cbv [String.append]. discriminate.
        - apply list_elem_of_singleton in Hin. revert Hin.
          unfold indexed. cbv [String.append]. discriminate. }
      by rewrite <- !app_assoc. }
    assert (dict_wf (d ++ event_params i sc)) as Hwf1.
    { rewrite <- Hsets. by do 3 apply dict_wf_set. }
    destruct (IH (d ++ event_params i sc)
                (set_heap (<[p := d ++ event_params i sc]> (heap s)) s))
      as [Hwf' Hrun].
    { cbn. by apply list_lookup_insert_eq. }
    { done. }
    { done. }
    { intros k Hk idx sc' Hidx. rewrite dict_keys_app, elem_of_app in Hk.
      destruct Hk as [Hk|Hk].
      - apply (Hfresh k Hk). by right.
      - apply (event_keys_disjoint i idx sc sc' k); [|done]. by intros ->. }
    assert (d' = (d ++ event_params i sc)
                   ++ mjoin ((fun item => event_params item.1 item.2) <$> items))
      as -> by (unfold d'; by rewrite <- app_assoc).
    split; [done|].
    cbn [for_fold]. erewrite bind_run; last first.
    { unfold add_scrobble.
      erewrite bind_run by by eapply obj_setitem_run.
      erewrite bind_run; last first.
      { eapply obj_setitem_run. cbn. by apply list_lookup_insert_eq. }
      erewrite obj_setitem_run; last first.
      { cbn. apply list_lookup_insert_eq. by rewrite length_insert. }
      cbn. rewrite !list_insert_insert_eq, Hsets. reflexivity. }
    etrans; [exact Hrun|]. cbn. by rewrite list_insert_insert_eq.
Qed.

Lemma batch_params_built (sk : value) (scrobbles : list scrobble) (s : state) :
  let base := [("method", VStr "track.scrobble"); ("api_key", VStr API_KEY); ("sk", sk)] in
  dict_wf (batch_params sk scrobbles)
  ∧ for_fold (imap pair scrobbles) tt (add_scrobble (length (heap s)))
      (set_heap (heap s ++ [base]) s)
    = (Ok tt, set_heap (heap s ++ [batch_params sk scrobbles]) s).
Proof.
  intros base.
  assert (mjoin ((fun item => event_params item.1 item.2) <$> imap pair scrobbles)
          = mjoin (imap event_params scrobbles)) as Hjoin.
  { f_equal. rewrite fmap_imap. by apply imap_ext. }
  destruct (fill_params_exact (length (heap s)) (imap pair scrobbles) base
              (set_heap (heap s ++ [base]) s)) as [Hwf Hrun].
  - cbn. apply heap_snoc_lookup.
  - apply (bool_decide_unpack _). by vm_compute.
  - rewrite fmap_imap.
    rewrite (imap_ext _ (fun j _ => id j)) by done.
    rewrite (imap_seq_0 scrobbles id), list_fmap_id. apply NoDup_seq.
  - intros k Hk idx sc _ Hin.
    apply (event_key_not_fixed idx sc k Hin).
    revert Hk. unfold base, dict_keys. csimpl. rewrite !elem_of_cons. tauto.
  - rewrite Hjoin in Hwf, Hrun. split; [exact Hwf|].
    etrans; [exact Hrun|]. cbn. by rewrite heap_snoc_insert.
Qed.

Lemma batch_params_keys (sk : value) (scrobbles : list scrobble) (k : string) :
  k ∈ dict_keys (batch_params sk scrobbles) →
  k ∈ ["method"; "api_key"; "sk"] ∨ ∃ idx sc, k ∈ dict_keys (event_params idx sc).
Proof.
  unfold batch_params. rewrite dict_keys_app, elem_of_app. intros [Hk|Hk]; [by left|].
  right. unfold dict_keys in Hk.
  apply list_elem_of_fmap in Hk as ([k' v] & -> & Hk).
  apply list_elem_of_join in Hk as (evs & Hk & Hevs).
  apply list_elem_of_lookup in Hevs as [idx Hevs].
  rewrite list_lookup_imap in Hevs.
  destruct (scrobbles !! idx) as [sc|]; [|done]. cbn in Hevs. injection Hevs as <-.
  exists idx, sc. unfold dict_keys. apply list_elem_of_fmap. by exists (k', v).
Qed.

(** signing the dict at [p] and sending it: the request carries the
    parameters, their signature and the format; the outcome is the next one
    of the network *)
Lemma sign_and_send_run {A} (m : http_method) (h : list (dict value)) (d : dict value)
    (s : state) (k : response → M A) :
  heap s = h ++ [d] →
  dict_wf d →
  "api_sig" ∉ dict_keys d →
  "format" ∉ dict_keys d →
  let sent :=
    set_trace (trace s ++ [EvRequest m API_URL (signed d)])
      (set_heap (h ++ [signed d; d]) s) in
  (sig ← get_signature (length h);
   obj_setitem (length h) "api_sig" (VStr sig);;
   obj_setitem (length h) "format" (VStr "json");;
   requests_send m API_URL (length h) ≫= k) s
  = match net s with
    | [] => (Raise ConnectionError, sent)
    | Raise e :: rest => (Raise e, set_net rest sent)
    | Ok r :: rest => k r (set_net rest sent)
    end.
Proof.
  intros Hheap Hwf Hsig Hformat sent.
  assert (heap s !! length h = Some d) as Hp by (rewrite Hheap; apply heap_snoc_lookup).
  erewrite bind_run by by eapply get_signature_run.
  rewrite key_values_pop_format by done.
  rewrite dict_pop_absent by done.
  erewrite bind_run; last first.
  { eapply obj_setitem_run. cbn. rewrite Hheap.
    rewrite lookup_app_l by (rewrite length_app; cbn; lia). apply heap_snoc_lookup. }
  erewrite bind_run; last first.
  { eapply obj_setitem_run. cbn. apply list_lookup_insert_eq.
    rewrite Hheap, !length_app. cbn. lia. }
  cbn [heap set_heap]. rewrite list_insert_insert_eq.
  rewrite (dict_set_fresh d "api_sig") by done.
  rewrite (dict_set_fresh (d ++ [_]) "format"); last first.
  { rewrite dict_keys_app, elem_of_app. intros [?|Hin]; [done|].
    by apply list_elem_of_singleton in Hin. }
  rewrite <- app_assoc. change ([("api_sig", _)] ++ [("format", _)])
    with [("api_sig", VStr (md5_hexdigest (signed_material d))); ("format", VStr "json")].
  fold (signed d).
  replace (<[length h := signed d]> ((heap s ++ [d])))
    with (h ++ [signed d; d]); last first.
  { rewrite Hheap, <- app_assoc. cbn. by rewrite insert_app_r_alt, Nat.sub_diag by lia. }
  unfold mbind, M_bind, requests_send.
  unfold mbind, M_bind, deref, gets, emit, modify, raise, lift. cbn.
  rewrite lookup_app_r, Nat.sub_diag by lia. cbn.
  destruct (net s) as [|[r|e] rest]; reflexivity.
Qed.

End wire.

Section exact_runs.
Context {rt : Runtime} {cfg : Settings}.

Lemma batch_params_unsigned (sk : value) (scrobbles : list scrobble) (k : string) :
  k ∈ ["api_sig"; "format"] → k ∉ dict_keys (batch_params sk scrobbles).
Proof.
  intros Hk Hin. apply batch_params_keys in Hin as [Hin|(idx & sc & Hin)].
  - revert Hk Hin. rewrite !elem_of_cons, !elem_of_nil.
    intros [->|[->|[]]] [?|[?|[?|[]]]]; discriminate.
  - apply (event_key_not_fixed idx sc k Hin).
    revert Hk. rewrite !elem_of_cons, !elem_of_nil. tauto.
Qed.

(** a run of [scrobble_tracks], once [ensure_auth] has gone through *)
Lemma scrobble_tracks_exact (scrobbles : list scrobble) (s s1 : state) :
  ensure_auth s = (Ok tt, s1) →
  let d := batch_params (session_key s1) scrobbles in
  let sent :=
    set_trace (trace s1 ++ [EvRequest POST API_URL (signed d)])
      (set_heap (heap s1 ++ [signed d; d]) s1) in
  scrobble_tracks scrobbles s
  = match net s1 with
    | [] => (Raise ConnectionError, sent)
    | Raise e :: rest => (Raise e, set_net rest sent)
    | Ok r :: rest =>
        (if is_http_error (status_code r) then Raise (HTTPError (status_code r))
         else match body r with Some data => Ok data | None => Raise JSONDecodeError end,
         set_net rest sent)
    end.
Proof.
  intros Hauth d sent. unfold scrobble_tracks.
  erewrite bind_run by exact Hauth.
  erewrite bind_run by reflexivity.
  erewrite bind_run by reflexivity.
  destruct (batch_params_built (session_key s1) scrobbles s1) as [Hwf Hfill].
  erewrite bind_run by exact Hfill.
  etrans.
  { apply (sign_and_send_run POST (heap s1) d); [done|done|..];
      apply batch_params_unsigned; rewrite !elem_of_cons; tauto. }
  cbn [net set_heap]. destruct (net s1) as [|[r|e] rest]; [done| |done].
  unfold raise_for_status, response_json, is_http_error.
  destruct ((400 <=? status_code r) && (status_code r <? 600)); [done|].
  run_M. by destruct (body r).
Qed.

(** a run of [scrobble_track], once [ensure_auth] has gone through *)
Lemma scrobble_track_exact (artist title : string) (ts : option Z) (s s1 : state) :
  ensure_auth s = (Ok tt, s1) →
  let t := match ts with
           | Some t => if t =? 0 then clock s1 else t
           | None => clock s1
           end in
  let d := track_params (session_key s1) artist title t in
  let sent :=
    set_trace (trace s1 ++ [EvRequest POST API_URL (signed d)])
      (set_heap (heap s1 ++ [signed d; d]) s1) in
  scrobble_track artist title ts s
  = match net s1 with
    | [] => (Raise ConnectionError, sent)
    | Raise e :: rest => (Raise e, set_net rest sent)
    | Ok r :: rest =>
        (match body r with Some data => Ok data | None => Raise JSONDecodeError end,
         set_net rest sent)
    end.
Proof.
  intros Hauth t d sent. unfold scrobble_track.
  erewrite bind_run by exact Hauth.
  erewrite bind_run by reflexivity.
  erewrite (bind_run _ _ s1 s1 t);
    last by (unfold t; destruct ts as [t0|]; [destruct (t0 =? 0)|]).
  erewrite bind_run by reflexivity.
  etrans.
  { apply (sign_and_send_run POST (heap s1) d); [done|..].
    - apply (bool_decide_unpack _). by vm_compute.
    - unfold d, track_params, dict_keys. csimpl. rewrite !elem_of_cons, elem_of_nil.
      intros [?|[?|[?|[?|[?|[?|[]]]]]]]; discriminate.
    - unfold d, track_params, dict_keys. csimpl. rewrite !elem_of_cons, elem_of_nil.
      intros [?|[?|[?|[?|[?|[?|[]]]]]]]; discriminate. }
  cbn [net set_heap]. destruct (net s1) as [|[r|e] rest]; [done| |done].
  unfold response_json. run_M. by destruct (body r).
Qed.

(** a run of [get_token] on a response whose body is a JSON object *)
Lemma get_token_run (s : state) (r : response) (rest : list (result response))
    (d : dict value) :
  net s = Ok r :: rest →
  body r = Some (VDict d) →
  get_token s
  = (match dict_get d "token" with
     | Some token => Ok token
     | None => Raise (PlainException "Failed to get authentication token")
     end,
     set_net rest
       (set_trace (trace s ++ [EvRequest GET API_URL token_params])
          (set_heap (heap s ++ [token_params]) s))).
Proof.
  intros Hnet Hbody. unfold get_token.
  erewrite bind_run by reflexivity.
  erewrite bind_run; last first.
  { eapply requests_send_run; [cbn; apply heap_snoc_lookup | exact Hnet]. }
  unfold response_json. rewrite Hbody. run_M. cbn.
  destruct (dict_get d "token") as [token|]; reflexivity.
Qed.

(** a run of [get_session] on a response whose body is a JSON object *)
Lemma get_session_run (token : value) (s : state) (r : response)
    (rest : list (result response)) (d : dict value) :
  net s = Ok r :: rest →
  body r = Some (VDict d) →
  let p := session_params token in
  let sent :=
    set_net rest
      (set_trace (trace s ++ [EvRequest GET API_URL (signed p)])
         (set_heap (heap s ++ [signed p; p]) s)) in
  get_session token s
  = match dict_get d "session" with
    | None => (Raise (PlainException "Failed to get session key"), sent)
    | Some session =>
        match py_getitem session "key" with
        | Raise e => (Raise e, sent)
        | Ok key => (Ok key, (save_credentials key sent).2)
        end
    end.
Proof.
  intros Hnet Hbody p sent. unfold get_session.
  erewrite bind_run by reflexivity.
  etrans.
  { apply (sign_and_send_run GET (heap s) p); [done|..].
    - apply (bool_decide_unpack _). by vm_compute.
    - unfold p, session_params, dict_keys. csimpl. rewrite !elem_of_cons, elem_of_nil.
      intros [?|[?|[?|[]]]]; discriminate.
    - unfold p, session_params, dict_keys. csimpl. rewrite !elem_of_cons, elem_of_nil.
      intros [?|[?|[?|[]]]]; discriminate. }
  cbn [net set_heap]. rewrite Hnet.
  unfold response_json. rewrite Hbody. run_M. cbn.
  destruct (dict_get d "session") as [session|]; cbn; [|reflexivity].
  destruct (py_getitem session "key") as [key|e]; [|reflexivity].
  unfold save_credentials. run_M. cbn.
  by destruct (cred_writable s).
Qed.

End exact_runs.

(** ** Instances of the frames *)

Section frame_instances.
Context {rt : Runtime} {cfg : Settings}.

Lemma scrobble_tracks_same_clock (scrobbles : list scrobble) :
  keeps same_clock (scrobble_tracks scrobbles).
Proof.
  apply keeps_scrobble_tracks; unfold same_clock; try done.
  intros s1 s2 s3 H12 H23. by rewrite H23.
Qed.

Lemma main_iteration_stdin_shrinks : keeps stdin_shrinks main_iteration.
Proof.
  apply keeps_main_iteration; unfold stdin_shrinks; try done.
  - intros s1 s2 s3 H12 H23. lia.
  - intros s line rest ->. cbn. lia.
Qed.

Lemma batch_scrobble_stdin_shrinks (artist title : string) (count : Z)
    (start_date : option Z) :
  keeps stdin_shrinks (batch_scrobble artist title count start_date).
Proof.
  apply keeps_batch_scrobble; unfold stdin_shrinks; try done.
  - intros s1 s2 s3 H12 H23. lia.
  - intros s line rest ->. cbn. lia.
Qed.

Lemma ensure_auth_raises_same_credentials : raises_keep same_credentials ensure_auth.
Proof.
  apply raises_keep_ensure_auth; unfold same_credentials; try done.
  intros s1 s2 s3 [H12 H12'] [H23 H23']. split; congruence.
Qed.

End frame_instances.

(** ** The credential store, continued *)

Section credentials_more.
Context {rt : Runtime} {cfg : Settings}.

(** X1.  What [save_credentials] writes, [load_session] reads back: after
    saving a key to a writable file, loading returns that key, and a new
    scrobbler starts with it. *)
Theorem save_credentials_round_trip (key : value) (s : state) :
  cred_writable s = true →
  let s1 := (save_credentials key s).2 in
  cred_file s1 = Some (Ok (VDict [("session_key", key)]))
  ∧ (load_session s1).1 = Ok key
  ∧ (init s1).1 = Ok tt
  ∧ session_key (init s1).2 = key.
Proof.
  intros Hw s1. unfold s1. rewrite save_credentials_run, Hw. cbn [snd cred_file set_cred_file].
  split; [done|].
  destruct (load_session_run
              (set_cred_file (Some (Ok (VDict [("session_key", key)]))) s))
    as [evs Hload].
  unfold init. erewrite bind_run by exact Hload. rewrite Hload. done.
Qed.

(** X2.  [save_credentials] never raises and never touches the session
    key; when the file cannot be written, the credentials on disk stay as
    they were and the error is logged. *)
Theorem save_credentials_never_raises (key : value) (s : state) :
  let s1 := (save_credentials key s).2 in
  (save_credentials key s).1 = Ok tt
  ∧ session_key s1 = session_key s
  ∧ (cred_writable s = true → trace s1 = trace s)
  ∧ (cred_writable s = false →
       cred_file s1 = cred_file s
       ∧ trace s1 = trace s ++ [EvLog (ErrorSavingCredentials OSError)]).
Proof.
  intros s1. unfold s1. rewrite save_credentials_run.
  destruct (cred_writable s); cbn; split_and!; done.
Qed.

(** X3.  The effects of [load_session]: an absent file and a JSON object
    are read silently and leave the state as it was; a file that cannot be
    opened or parsed is logged with its error, and nothing else changes. *)
Theorem load_session_effects (s : state) :
  (cred_file s = None → load_session s = (Ok VNone, s))
  ∧ (∀ d, cred_file s = Some (Ok (VDict d)) →
       load_session s = (Ok (default VNone (dict_get d "session_key")), s))
  ∧ (∀ e, cred_file s = Some (Raise e) →
       load_session s
       = (Ok VNone, set_trace (trace s ++ [EvLog (ErrorLoadingCredentials e)]) s))
  ∧ cred_file (load_session s).2 = cred_file s
  ∧ session_key (load_session s).2 = session_key s
  ∧ net (load_session s).2 = net s.
Proof.
  split_and!.
  - intros Hf. unfold load_session. run_M. by rewrite Hf.
  - intros d Hf. unfold load_session. run_M. rewrite Hf. cbn.
    destruct (dict_get d "session_key") as [v|] eqn:Hd; cbn; by rewrite ?Hd.
  - intros e Hf. unfold load_session. run_M. by rewrite Hf.
  - destruct (load_session_run s) as [evs ->]. done.
  - destruct (load_session_run s) as [evs ->]. done.
  - destruct (load_session_run s) as [evs ->]. done.
Qed.

End credentials_more.

(** ** The auth flow *)

Section auth_flow.
Context {rt : Runtime} {cfg : Settings}.

(** X4.  [get_token] sends one unsigned GET with the method, the API key
    and the format, whatever the HTTP status; on a JSON object it returns
    the value of ['token'] and raises "Failed to get authentication token"
    when the key is missing.  It leaves the session key, the credentials
    file and the input alone. *)
Theorem get_token_outcome (s : state) (r : response) (rest : list (result response))
    (d : dict value) :
  net s = Ok r :: rest →
  body r = Some (VDict d) →
  let s1 := (get_token s).2 in
  (get_token s).1
  = match dict_get d "token" with
    | Some token => Ok token
    | None => Raise (PlainException "Failed to get authentication token")
    end
  ∧ trace s1 = trace s ++ [EvRequest GET API_URL token_params]
  ∧ dict_get token_params "api_sig" = None
  ∧ net s1 = rest
  ∧ session_key s1 = session_key s
  ∧ cred_file s1 = cred_file s
  ∧ stdin s1 = stdin s.
Proof.
  intros Hnet Hbody s1. unfold s1. rewrite (get_token_run s r rest d Hnet Hbody).
  split_and!; done.
Qed.

(** X5.  [get_session] sends one GET whose parameters are the method, the
    API key and the token, then their signature and the format.  On a JSON
    object with [session.key] it returns the key and writes it to the
    credentials file (when the file is writable); without ['session'] it
    raises "Failed to get session key" and the credentials file is not
    touched. *)
Theorem get_session_outcome (token : value) (s : state) (r : response)
    (rest : list (result response)) (d : dict value) :
  net s = Ok r :: rest →
  body r = Some (VDict d) →
  let out := get_session token s in
  requests_of (trace out.2)
    = requests_of (trace s) ++ [(GET, signed (session_params token))]
  ∧ net out.2 = rest
  ∧ session_key out.2 = session_key s
  ∧ (dict_get d "session" = None →
       out.1 = Raise (PlainException "Failed to get session key")
       ∧ cred_file out.2 = cred_file s)
  ∧ (∀ ds key, dict_get d "session" = Some (VDict ds) → dict_get ds "key" = Some key →
       out.1 = Ok key
       ∧ cred_file out.2
         = if cred_writable s then Some (Ok (VDict [("session_key", key)]))
           else cred_file s).
Proof.
  intros Hnet Hbody out. unfold out.
  rewrite (get_session_run token s r rest d Hnet Hbody).
  assert (∀ evs, requests_of (trace s ++ evs) = requests_of (trace s) ++ requests_of evs)
    as Happ by (intros evs; apply omap_app).
  destruct (dict_get d "session") as [session|] eqn:Hsession.
  - destruct (py_getitem session "key") as [key|e] eqn:Hkey.
    + rewrite save_credentials_run. cbn [fst snd cred_writable set_net set_trace set_heap].
      destruct (cred_writable s) eqn:Hw; cbn; rewrite <- ?app_assoc, Happ;
        (split_and!; [done..| |]; [done|]);
        intros ds key' [= ->]; cbn in Hkey; intros Hds; rewrite Hds in Hkey;
        injection Hkey as ->; done.
    + cbn. rewrite Happ. split_and!; [done..| |]; [done|].
      intros ds key [= ->] Hds. cbn in Hkey. by rewrite Hds in Hkey.
  - cbn. rewrite Happ. split_and!; done.
Qed.

(** X6.  The handshake.  Without a session key, [ensure_auth] requests a
    token, shows and opens the authorization page for that token, waits
    for one line of input, exchanges the token for the session key, stores
    the key in the scrobbler and in the credentials file, and reports
    success; it consumes exactly two responses and one line.  A second
    call, the key being non-empty, does nothing. *)
Theorem ensure_auth_handshake (s : state) (r1 r2 : response)
    (rest : list (result response)) (d1 d2 ds : dict value) (token key : value)
    (line : string) (lines : list string) :
  py_truthy (session_key s) = false →
  cred_writable s = true →
  net s = Ok r1 :: Ok r2 :: rest →
  stdin s = line :: lines →
  body r1 = Some (VDict d1) →
  dict_get d1 "token" = Some token →
  body r2 = Some (VDict d2) →
  dict_get d2 "session" = Some (VDict ds) →
  dict_get ds "key" = Some key →
  let out := ensure_auth s in
  out.1 = Ok tt
  ∧ session_key out.2 = key
  ∧ cred_file out.2 = Some (Ok (VDict [("session_key", key)]))
  ∧ net out.2 = rest
  ∧ stdin out.2 = lines
  ∧ trace out.2
    = trace s
      ++ [EvRequest GET API_URL token_params;
          EvPrint "Please authorize this application by visiting this URL:";
          EvPrint (auth_url token);
          EvBrowser (auth_url token);
          EvInput "Press Enter after you've authorized the application...";
          EvRequest GET API_URL (signed (session_params token));
          EvPrint "Successfully authenticated!"]
  ∧ (py_truthy key = true → ensure_auth out.2 = (Ok tt, out.2)).
Proof.
  intros Hkey Hw Hnet Hin Hb1 Ht Hb2 Hs Hk out.
  assert (∃ s', ensure_auth s = (Ok tt, s')
                ∧ session_key s' = key
                ∧ cred_file s' = Some (Ok (VDict [("session_key", key)]))
                ∧ net s' = rest ∧ stdin s' = lines
                ∧ trace s'
                  = trace s
                    ++ [EvRequest GET API_URL token_params;
                        EvPrint "Please authorize this application by visiting this URL:";
                        EvPrint (auth_url token);
                        EvBrowser (auth_url token);
                        EvInput "Press Enter after you've authorized the application...";
                        EvRequest GET API_URL (signed (session_params token));
                        EvPrint "Successfully authenticated!"])
    as (s' & Hrun & Hrest).
  { eexists. split.
    - unfold ensure_auth.
      erewrite bind_run by reflexivity. rewrite Hkey. cbn [negb].
      erewrite bind_run; last first.
      { rewrite (get_token_run s r1 (Ok r2 :: rest) d1 Hnet Hb1), Ht. reflexivity. }
      erewrite bind_run; last first.
      { unfold authorize_token. fold (auth_url token).
        erewrite bind_run by reflexivity.
        erewrite bind_run by reflexivity.
        erewrite bind_run by reflexivity.
        erewrite bind_run; last first.
        { rewrite input_run. cbn [stdin set_net set_trace set_heap]. rewrite Hin.
          reflexivity. }
        reflexivity. }
      erewrite bind_run; last first.
      { erewrite get_session_run; [|reflexivity|exact Hb2].
        rewrite Hs. cbn [py_getitem]. rewrite Hk.
        rewrite save_credentials_run. cbn [cred_writable set_net set_trace set_heap set_stdin].
        rewrite Hw. reflexivity. }
      reflexivity.
    - cbn. rewrite <- !app_assoc. split_and!; reflexivity. }
  unfold out. rewrite Hrun. cbn [fst snd].
  destruct Hrest as (Hsk & Hcf & Hn & Hi & Htr).
  split_and!; try done.
  intros Htruthy. apply ensure_auth_authenticated. by rewrite Hsk.
Qed.

(** X7.  A failed handshake changes no credentials: whenever [ensure_auth]
    raises (no token, no input, no session, network or JSON error), the
    session key of the scrobbler and the credentials file are as before,
    so the next call starts the handshake again. *)
Theorem ensure_auth_failure_keeps_credentials (s s' : state) (e : exn) :
  ensure_auth s = (Raise e, s') →
  session_key s' = session_key s
  ∧ cred_file s' = cred_file s
  ∧ py_truthy (session_key s') = false.
Proof.
  intros Hrun.
  destruct (ensure_auth_raises_same_credentials s e s' Hrun) as [Hsk Hcf].
  split_and!; [done..|].
  rewrite Hsk. destruct (py_truthy (session_key s)) eqn:Hkey; [|done].
  by rewrite ensure_auth_authenticated in Hrun.
Qed.

End auth_flow.

(** ** The requests of the submitters *)

Lemma dict_get_app {V} (d1 d2 : dict V) (k : string) :
  dict_get (d1 ++ d2) k
  = match dict_get d1 k with Some v => Some v | None => dict_get d2 k end.
Proof.
  induction d1 as [|[k0 v0] d1 IH]; csimpl; [done|].
  by destruct (decide (k0 = k)).
Qed.

Lemma dict_get_absent {V} (d : dict V) (k : string) :
  k ∉ dict_keys d → dict_get d k = None.
Proof. intros Hk. apply eq_None_not_Some. by rewrite <- elem_of_dict_keys. Qed.

Lemma dict_get_elem_of {V} (d : dict V) (k : string) (v : V) :
  dict_wf d → (k, v) ∈ d → dict_get d k = Some v.
Proof.
  unfold dict_wf, dict_keys. induction d as [|[k0 v0] d IH]; csimpl.
  - by intros _ ?%elem_of_nil.
  - intros [Hk0 Hnd]%NoDup_cons [Heq|Hin]%elem_of_cons.
    + injection Heq as <- <-. by rewrite decide_True.
    + rewrite decide_False; [by apply IH|].
      intros ->. apply Hk0. apply list_elem_of_fmap. by exists (k, v).
Qed.

Lemma dict_pop_app_fresh {V} (d1 d2 : dict V) (k : string) :
  k ∉ dict_keys d1 → dict_pop (d1 ++ d2) k = d1 ++ dict_pop d2 k.
Proof.
  unfold dict_keys. induction d1 as [|[k0 v0] d1 IH]; csimpl; [done|].
  intros Hk. rewrite decide_False by (intros ->; apply Hk; by left).
  rewrite IH; [done|]. intros ?. apply Hk. by right.
Qed.

Lemma length_join_events (l : list scrobble) (f : nat → scrobble → dict value) :
  (∀ i sc, length (f i sc) = 3%nat) →
  length (mjoin (imap f l)) = (3 * length l)%nat.
Proof.
  revert f. induction l as [|sc l IH]; intros f Hf; [done|].
  rewrite imap_cons. cbn [mjoin list_join]. rewrite length_app, Hf.
  rewrite IH by (intros i sc'; apply Hf). cbn [length]. lia.
Qed.

Section requests.
Context {rt : Runtime} {cfg : Settings}.

(** the signed material does not depend on the format *)
Lemma signed_material_format (d : dict value) (v : value) :
  signed_material (d ++ [("format", v)]) = signed_material d.
Proof.
  unfold signed_material. rewrite dict_keys_app, filter_app.
  change (dict_keys [("format", v)]) with ["format"].
  rewrite filter_cons_False by (intros Hne; by apply Hne).
  rewrite filter_nil, app_nil_r. do 2 f_equal.
  apply list_fmap_ext. intros i k Hk.
  assert (k ∈ dict_keys d) as Hin.
  { apply list_elem_of_lookup_2 in Hk. unfold sorted_str in Hk.
    rewrite merge_sort_Permutation in Hk. by apply list_elem_of_filter in Hk as [_ ?]. }
  rewrite dict_get_app. apply elem_of_dict_keys in Hin as [w ->]. done.
Qed.

(** a signed request: nothing is lost, no key is doubled, and the
    signature can be checked against the rest of the request *)
Lemma signed_request (d : dict value) :
  dict_wf d →
  "api_sig" ∉ dict_keys d →
  "format" ∉ dict_keys d →
  dict_wf (signed d)
  ∧ dict_get (signed d) "api_sig"
    = Some (VStr (md5_hexdigest (signed_material (dict_pop (signed d) "api_sig"))))
  ∧ dict_get (signed d) "format" = Some (VStr "json")
  ∧ ∀ k v, dict_get d k = Some v → dict_get (signed d) k = Some v.
Proof.
  intros Hwf Hsig Hformat. unfold signed. split_and!.
  - unfold dict_wf. rewrite dict_keys_app. apply NoDup_app. split_and!; [done| |].
    + intros k Hk Hin. change (k ∈ ["api_sig"; "format"]) in Hin.
      revert Hin. rewrite !elem_of_cons, elem_of_nil. intros [->|[->|[]]]; done.
    + apply (bool_decide_unpack _). by vm_compute.
  - rewrite dict_pop_app_fresh by done. csimpl.
    rewrite signed_material_format, dict_get_app, dict_get_absent by done.
    done.
  - rewrite dict_get_app, dict_get_absent by done. done.
  - intros k v Hk. by rewrite dict_get_app, Hk.
Qed.

(** X8.  Whatever the network answers, [scrobble_tracks] sends exactly one
    POST.  Its parameters are, in this order: the method, the API key, the
    session key, then ['artist[i]'], ['track[i]'], ['timestamp[i]'] for each
    event [i], then ['api_sig'] and ['format'] (so [5 + 3n] parameters for
    [n] events, however many they are).  No key occurs twice, and
    ['api_sig'] is the signature of the rest of the request. *)
Theorem scrobble_tracks_request (scrobbles : list scrobble) (s s1 : state) :
  ensure_auth s = (Ok tt, s1) →
  let out := scrobble_tracks scrobbles s in
  let sent := signed (batch_params (session_key s1) scrobbles) in
  trace out.2 = trace s1 ++ [EvRequest POST API_URL sent]
  ∧ net out.2 = tail (net s1)
  ∧ dict_wf sent
  ∧ length sent = (5 + 3 * length scrobbles)%nat
  ∧ dict_get sent "api_sig"
    = Some (VStr (md5_hexdigest (signed_material (dict_pop sent "api_sig"))))
  ∧ dict_get sent "format" = Some (VStr "json")
  ∧ dict_get sent "sk" = Some (session_key s1)
  ∧ (∀ idx sc, scrobbles !! idx = Some sc →
       dict_get sent (indexed "artist" idx) = Some (VStr (artist sc))
       ∧ dict_get sent (indexed "track" idx) = Some (VStr (track sc))
       ∧ dict_get sent (indexed "timestamp" idx)
         = Some (VStr (pretty (timestamp sc)))).
Proof.
  intros Hauth out sent.
  destruct (batch_params_built (session_key s1) scrobbles s1) as [Hwf _].
  destruct (signed_request (batch_params (session_key s1) scrobbles) Hwf)
    as (Hwf' & Hsig & Hformat & Hkeep);
    [apply batch_params_unsigned; rewrite !elem_of_cons; tauto..|].
  assert (trace out.2 = trace s1 ++ [EvRequest POST API_URL sent]
          ∧ net out.2 = tail (net s1)) as [Htrace Hnet].
  { unfold out. rewrite (scrobble_tracks_exact scrobbles s s1 Hauth).
    destruct (net s1) as [|[r|e] rest] eqn:Hn; cbn; rewrite ?Hn; split; reflexivity. }
  split_and!; [exact Htrace | exact Hnet | exact Hwf' | | exact Hsig | exact Hformat | |].
  - unfold sent, signed, batch_params. rewrite !length_app.
    rewrite length_join_events by done. cbn [length]. lia.
  - apply Hkeep. reflexivity.
  - intros idx sc Hidx.
    assert (∀ k v, (k, v) ∈ event_params idx sc → dict_get sent k = Some v) as Hev.
    { intros k v Hin. apply Hkeep, dict_get_elem_of; [done|].
      unfold batch_params. apply elem_of_app. right.
      apply list_elem_of_join. exists (event_params idx sc). split; [done|].
      apply list_elem_of_lookup. exists idx. by rewrite list_lookup_imap, Hidx. }
    split_and!; apply Hev; unfold event_params; rewrite !elem_of_cons; tauto.
Qed.

(** X9.  [scrobble_track] sends exactly one POST with the method, the API
    key, the session key, the artist, the track and the timestamp, then
    their signature and the format.  The timestamp is the one given,
    except that [None] and [0] both stand for the current time.  Whatever
    the status of the response, the result is the parsed body, or the
    decoder's error. *)
Theorem scrobble_track_request (artist title : string) (ts : option Z) (s s1 : state) :
  ensure_auth s = (Ok tt, s1) →
  let out := scrobble_track artist title ts s in
  let t := match ts with
           | Some t => if t =? 0 then clock s1 else t
           | None => clock s1
           end in
  let sent := signed (track_params (session_key s1) artist title t) in
  trace out.2 = trace s1 ++ [EvRequest POST API_URL sent]
  ∧ net out.2 = tail (net s1)
  ∧ dict_wf sent
  ∧ dict_get sent "api_sig"
    = Some (VStr (md5_hexdigest (signed_material (dict_pop sent "api_sig"))))
  ∧ dict_get sent "timestamp" = Some (VStr (pretty t))
  ∧ (∀ r rest, net s1 = Ok r :: rest →
       out.1 = match body r with Some data => Ok data | None => Raise JSONDecodeError end)
  ∧ (∀ e rest, net s1 = Raise e :: rest → out.1 = Raise e)
  ∧ (net s1 = [] → out.1 = Raise ConnectionError).
Proof.
  intros Hauth out t sent.
  destruct (signed_request (track_params (session_key s1) artist title t))
    as (Hwf' & Hsig & Hformat & Hkeep).
  { apply (bool_decide_unpack _). by vm_compute. }
  { unfold track_params, dict_keys. csimpl. rewrite !elem_of_cons, elem_of_nil.
    intros [?|[?|[?|[?|[?|[?|[]]]]]]]; discriminate. }
  { unfold track_params, dict_keys. csimpl. rewrite !elem_of_cons, elem_of_nil.
    intros [?|[?|[?|[?|[?|[?|[]]]]]]]; discriminate. }
  unfold out. rewrite (scrobble_track_exact artist title ts s s1 Hauth).
  fold t. fold sent.
  split_and!.
  - destruct (net s1) as [|[r|e] rest]; reflexivity.
  - destruct (net s1) as [|[r|e] rest] eqn:Hn; cbn; rewrite ?Hn; reflexivity.
  - exact Hwf'.
  - exact Hsig.
  - apply Hkeep. reflexivity.
  - intros r rest ->. reflexivity.
  - intros e rest ->. reflexivity.
  - intros ->. reflexivity.
Qed.

End requests.

(** ** The batch planner, continued *)

Section batch_more.
Context {rt : Runtime} {cfg : Settings}.

Lemma submitted_clock (count : Z) (batches : list (list scrobble)) (total : Z)
    (s s' : state) (outs : list (result value)) :
  submitted count batches total s outs s' →
  clock s' = clock s + Z.of_nat (length batches).
Proof.
  induction 1 as [|batch batches total s r s1 outs s' Hsub _ IH]; [cbn; lia|].
  pose proof (scrobble_tracks_same_clock batch s) as Hclock.
  rewrite Hsub in Hclock. unfold same_clock in Hclock. cbn in Hclock.
  rewrite IH. cbn. lia.
Qed.

(** X10.  The pause: [batch_scrobble] sleeps one second after every chunk,
    the last one included, and nothing else moves the clock, so a run over
    [count] events takes [ceil(count/50)] seconds of pauses, whether the
    submissions succeed or not. *)
Theorem batch_scrobble_pauses (artist title : string) (count : Z)
    (start_date : option Z) (s : state) :
  0 ≤ count →
  clock (batch_scrobble artist title count start_date s).2
  = clock s + ceil_div count 50.
Proof.
  intros Hcount.
  destruct (batch_scrobble_run artist title count start_date s)
    as (outs & s' & Hsub & ->).
  cbn [snd].
  rewrite (submitted_clock _ _ _ _ _ _ Hsub), chunks_50_length, batch_events_length.
  do 2 f_equal. lia.
Qed.

(** X11.  Nothing to do: for a count of zero or less, [batch_scrobble]
    returns 0 at once; it sends nothing, does not even authenticate, and
    leaves the state as it was. *)
Theorem batch_scrobble_nothing_to_do (artist title : string) (count : Z)
    (start_date : option Z) (s : state) :
  count ≤ 0 →
  batch_scrobble artist title count start_date s = (Ok 0, s).
Proof.
  intros Hcount. unfold batch_scrobble.
  erewrite (bind_run _ _ s s (default (clock s) start_date))
    by by destruct start_date.
  assert (batch_events artist title count (default (clock s) start_date) = []) as ->.
  { apply length_zero_iff_nil. rewrite batch_events_length. lia. }
  reflexivity.
Qed.

Lemma requests_of_app (evs1 evs2 : list event) :
  requests_of (evs1 ++ evs2) = requests_of evs1 ++ requests_of evs2.
Proof. apply omap_app. Qed.

Lemma submitted_authenticated (count : Z) (batches : list (list scrobble)) (total : Z)
    (s s' : state) (outs : list (result value)) :
  py_truthy (session_key s) = true →
  submitted count batches total s outs s' →
  same_login s s'
  ∧ net s' = drop (length batches) (net s)
  ∧ requests_of (trace s')
    = requests_of (trace s)
      ++ ((fun batch => (POST, signed (batch_params (session_key s) batch))) <$> batches).
Proof.
  intros Hkey Hsub. revert Hkey.
  induction Hsub as [|batch batches total s r s1 outs s' Hsub _ IH]; intros Hkey.
  - unfold same_login. cbn. by rewrite app_nil_r.
  - pose proof (scrobble_tracks_exact batch s s (ensure_auth_authenticated s Hkey))
      as Hexact.
    rewrite Hsub in Hexact.
    assert (session_key s1 = session_key s ∧ cred_file s1 = cred_file s
            ∧ stdin s1 = stdin s ∧ net s1 = tail (net s)
            ∧ trace s1
              = trace s ++ [EvRequest POST API_URL
                              (signed (batch_params (session_key s) batch))])
      as (Hsk & Hcf & Hin & Hnet & Htr).
    { destruct (net s) as [|[r0|e0] rest] eqn:Hn; injection Hexact as _ ->;
        cbn; rewrite ?Hn; split_and!; reflexivity. }
    destruct IH as ([Hsk' [Hcf' Hin']] & Hnet' & Hreq').
    { cbn. by rewrite Hsk. }
    unfold after_chunk in Hsk', Hcf', Hin', Hnet', Hreq'.
    cbn [session_key cred_file stdin net trace set_clock set_trace]
      in Hsk', Hcf', Hin', Hnet', Hreq'.
    split_and!.
    + unfold same_login. rewrite Hsk', Hcf', Hin', Hsk, Hcf, Hin. done.
    + rewrite Hnet', Hnet.
      destruct (net s); cbn [tail]; [by rewrite !drop_nil | reflexivity].
    + rewrite Hreq', Htr, Hsk, !requests_of_app. cbn [fmap list_fmap].
      rewrite <- !app_assoc. reflexivity.
Qed.

(** X12.  Once authenticated, a run of [batch_scrobble] only submits: it
    sends exactly one signed POST per chunk, in order, each carrying the
    events of its chunk, and no other request; it takes one response per
    chunk from the network; it reads no input and changes neither the
    session key nor the credentials file. *)
Theorem batch_scrobble_authenticated (artist title : string) (count : Z)
    (start_date : option Z) (s : state) :
  py_truthy (session_key s) = true →
  let batches :=
    chunks 50 (batch_events artist title count (default (clock s) start_date)) in
  let s' := (batch_scrobble artist title count start_date s).2 in
  requests_of (trace s')
  = requests_of (trace s)
    ++ ((fun batch => (POST, signed (batch_params (session_key s) batch))) <$> batches)
  ∧ net s' = drop (length batches) (net s)
  ∧ stdin s' = stdin s
  ∧ session_key s' = session_key s
  ∧ cred_file s' = cred_file s.
Proof.
  intros Hkey batches s'.
  destruct (batch_scrobble_run artist title count start_date s)
    as (outs & s1 & Hsub & Hrun).
  unfold s'. rewrite Hrun. cbn [snd].
  destruct (submitted_authenticated _ _ _ _ _ _ Hkey Hsub)
    as ([Hsk [Hcf Hin]] & Hnet & Hreq).
  split_and!; done.
Qed.

End batch_more.

(** ** The loop of [main] *)

Section main_loop.
Context {rt : Runtime} {cfg : Settings}.

(** a round of prompts that returns has read at least one line *)
Lemma read_job_consumes (s s' : state) (o : option job) :
  read_job s = (Ok o, s') → (length (stdin s') < length (stdin s))%nat.
Proof.
  unfold read_job. intros Hrun.
  apply bind_Ok_inv in Hrun as ([] & s0 & Hprint & Hrun).
  injection Hprint as <-.
  apply bind_Ok_inv in Hrun as (artist & s1 & Hinput & Hrun).
  rewrite input_run in Hinput. cbn [stdin set_trace] in Hinput.
  destruct (stdin s) as [|line rest] eqn:Hin; [done|].
  injection Hinput as <- <-.
  assert (keeps stdin_shrinks
            (if bool_decide (str_lower line = "quit") then mret None
             else
               title ← input "Track title: ";
               count ← input "Number of scrobbles (max 1000): ";
               count ← lift (int_of_str count);
               let count := Z.min 1000 (Z.max 1 count) in
               backdate ← input "Backdate scrobbles? (y/n): ";
               let backdate := bool_decide (str_lower backdate = "y") in
               start_date ←
                 (if backdate then
                    days_ago ← input "How many days ago to start from? ";
                    days_ago ← lift (int_of_str days_ago);
                    now ← time_time;
                    mret (Some (now - days_ago * 86400))
                  else mret None);
               mret (Some {| job_artist := line; job_title := title;
                             job_count := count; job_start_date := start_date |})))
    as Hrest.
  { assert (∀ s, stdin_shrinks s s) as Hrefl by (intros ?; unfold stdin_shrinks; lia).
    assert (∀ s1 s2 s3, stdin_shrinks s1 s2 → stdin_shrinks s2 s3 → stdin_shrinks s1 s3)
      as Htrans by (unfold stdin_shrinks; intros; lia).
    assert (∀ prompt, keeps stdin_shrinks (input prompt)) as Hinput.
    { intros prompt. apply keeps_input; unfold stdin_shrinks;
        [intros; lia | intros; cbn; lia | intros s2 l r ->; cbn; lia]. }
    case_bool_decide; [by apply keeps_mret|].
    repeat first
      [ apply Hinput
      | apply keeps_bind; [done| |intros ?]
      | apply keeps_lift; done
      | apply keeps_mret; done
      | apply keeps_gets; done
      | match goal with |- keeps _ (if ?b then _ else _) => destruct b end
      | progress cbv beta zeta ]. }
  match type of Hrun with _ ?st = _ => specialize (Hrest st) end.
  unfold stdin_shrinks in Hrest. rewrite Hrun in Hrest. cbn in Hrest.
  rewrite ?Hin. cbn [length]. lia.
Qed.

(** an iteration that asks for another one has read at least one line *)
Lemma main_iteration_consumes (s s' : state) (continue : bool) :
  main_iteration s = (Ok continue, s') → (length (stdin s') < length (stdin s))%nat.
Proof.
  intros Hrun. pose proof (main_iteration_stdin_shrinks s) as Hall.
  unfold main_iteration in Hrun.
  apply bind_Ok_inv in Hrun as (o & s1 & Hjob & Hrun).
  apply read_job_consumes in Hjob.
  destruct o as [j|].
  - apply bind_Ok_inv in Hrun as ([] & s2 & Hprint & Hrun). injection Hprint as <-.
    apply bind_Ok_inv in Hrun as (n & s3 & Hbatch & Hrun).
    match type of Hbatch with _ ?st = _ =>
      pose proof (batch_scrobble_stdin_shrinks (job_artist j) (job_title j)
                    (job_count j) (job_start_date j) st) as Hshrink
    end.
    unfold stdin_shrinks in Hshrink. rewrite Hbatch in Hshrink. cbn in Hshrink.
    injection Hrun as _ <-. cbn. lia.
  - injection Hrun as _ <-. done.
Qed.

Lemma main_loop_enough_fuel (fuel fuel' : nat) (s : state) :
  (length (stdin s) < fuel)%nat → (length (stdin s) < fuel')%nat →
  main_loop fuel s = main_loop fuel' s ∧ (main_loop fuel s).1 ≠ Ok false.
Proof.
  revert fuel' s. induction fuel as [|fuel IH]; intros fuel' s Hfuel Hfuel'; [lia|].
  destruct fuel' as [|fuel']; [lia|].
  cbn [main_loop]. unfold mbind, M_bind.
  destruct (main_iteration s) as [[continue|e] s1] eqn:Hiter; [|done].
  destruct continue; [|done].
  apply main_iteration_consumes in Hiter. apply IH; lia.
Qed.

Lemma bind_raised {A B} (m : M A) (f : A → M B) (s s' : state) (e : exn) :
  m s = (Raise e, s') → (m ≫= f) s = (Raise e, s').
Proof. intros Hm. unfold mbind, M_bind. by rewrite Hm. Qed.

Lemma main_iteration_quit (s : state) (line : string) (rest : list string) :
  stdin s = line :: rest →
  str_lower line = "quit" →
  ∃ s', main_iteration s = (Ok false, s')
        ∧ stdin s' = rest ∧ net s' = net s
        ∧ requests_of (trace s') = requests_of (trace s).
Proof.
  intros Hin Hquit. eexists. split.
  - unfold main_iteration. erewrite bind_run; last first.
    { unfold read_job. erewrite bind_run by reflexivity.
      erewrite bind_run; last first.
      { rewrite input_run. cbn [stdin set_trace]. rewrite Hin. reflexivity. }
      rewrite bool_decide_eq_true_2 by done. reflexivity. }
    reflexivity.
  - cbn. rewrite <- app_assoc, requests_of_app. cbn. by rewrite app_nil_r.
Qed.

Lemma main_iteration_eof (s : state) :
  stdin s = [] → ∃ s', main_iteration s = (Raise EOFError, s').
Proof.
  intros Hin. eexists. unfold main_iteration. eapply bind_raised.
  unfold read_job. erewrite bind_run by reflexivity.
  eapply bind_raised. rewrite input_run. cbn [stdin set_trace]. rewrite Hin.
  reflexivity.
Qed.

(** X13.  The loop of [main] ends: with finitely many lines of input left,
    the loop is left by ['quit'] or by an exception, after fewer rounds
    than there are lines plus one; a larger bound on the rounds changes
    nothing.  At the end of the input it raises [EOFError], and ['quit']
    (in any case) leaves it at once, without any request. *)
Theorem main_loop_terminates (fuel : nat) (s : state) :
  (length (stdin s) < fuel)%nat →
  (∀ fuel', (fuel ≤ fuel')%nat → main_loop fuel' s = main_loop fuel s)
  ∧ ((main_loop fuel s).1 = Ok true ∨ ∃ e, (main_loop fuel s).1 = Raise e)
  ∧ (stdin s = [] → (main_loop fuel s).1 = Raise EOFError)
  ∧ (∀ line rest, stdin s = line :: rest → str_lower line = "quit" →
       (main_loop fuel s).1 = Ok true
       ∧ stdin (main_loop fuel s).2 = rest
       ∧ net (main_loop fuel s).2 = net s
       ∧ requests_of (trace (main_loop fuel s).2) = requests_of (trace s)).
Proof.
  intros Hfuel. split_and!.
  - intros fuel' Hle. apply main_loop_enough_fuel; lia.
  - destruct (main_loop_enough_fuel fuel fuel s Hfuel Hfuel) as [_ Hne].
    destruct (main_loop fuel s).1 as [[]|e]; [by left|done|eauto].
  - intros Hin. destruct fuel as [|fuel]; [lia|].
    destruct (main_iteration_eof s Hin) as [s' Hrun].
    cbn [main_loop]. by erewrite bind_raised by exact Hrun.
  - intros line rest Hin Hquit. destruct fuel as [|fuel]; [lia|].
    destruct (main_iteration_quit s line rest Hin Hquit) as (s' & Hrun & Hrest).
    cbn [main_loop]. erewrite bind_run by exact Hrun. done.
Qed.

End main_loop.

(** ** Witnesses, continued *)

Lemma save_credentials_round_trip_witness :
  cred_writable (sample_state [] []) = true
  ∧ (load_session (save_credentials (VStr "sk9") (sample_state [] [])).2).1
    = Ok (VStr "sk9").
Proof.
  split; [reflexivity|].
  pose proof (save_credentials_round_trip (VStr "sk9") (sample_state [] []) eq_refl)
    as (_ & Hload & _).
  exact Hload.
Defined.

Lemma get_token_outcome_witness :
  net (fresh_state [Ok token_response] []) = [Ok token_response]
  ∧ body token_response = Some (VDict [("token", VStr "tok")])
  ∧ (get_token (cfg:=sample_settings) (fresh_state [Ok token_response] [])).1
    = Ok (VStr "tok").
Proof.
  split; [reflexivity|]. split; [reflexivity|].
  pose proof (get_token_outcome (cfg:=sample_settings)
                (fresh_state [Ok token_response] []) token_response []
                [("token", VStr "tok")] eq_refl eq_refl) as [Hout _].
  exact Hout.
Defined.

Lemma get_session_outcome_witness :
  net (fresh_state [Ok session_response] []) = [Ok session_response]
  ∧ body session_response
    = Some (VDict [("session", VDict [("name", VStr "user"); ("key", VStr "sk9")])])
  ∧ (get_session (rt:=ascii_runtime) (cfg:=sample_settings) (VStr "tok")
       (fresh_state [Ok session_response] [])).1
    = Ok (VStr "sk9").
Proof.
  split; [reflexivity|]. split; [reflexivity|].
  pose proof (get_session_outcome (rt:=ascii_runtime) (cfg:=sample_settings)
                (VStr "tok") (fresh_state [Ok session_response] []) session_response []
                [("session", VDict [("name", VStr "user"); ("key", VStr "sk9")])]
                eq_refl eq_refl) as (_ & _ & _ & _ & Hkey).
  exact (proj1 (Hkey [("name", VStr "user"); ("key", VStr "sk9")] (VStr "sk9")
                  eq_refl eq_refl)).
Defined.

Lemma ensure_auth_handshake_witness :
  let s := fresh_state [Ok token_response; Ok session_response] [EmptyString] in
  py_truthy (session_key s) = false
  ∧ cred_writable s = true
  ∧ net s = [Ok token_response; Ok session_response]
  ∧ stdin s = [EmptyString]
  ∧ session_key (ensure_auth (rt:=ascii_runtime) (cfg:=sample_settings) s).2
    = VStr "sk9"
  ∧ cred_file (ensure_auth (rt:=ascii_runtime) (cfg:=sample_settings) s).2
    = Some (Ok (VDict [("session_key", VStr "sk9")])).
Proof.
  intros s. do 4 (split; [reflexivity|]).
  pose proof (ensure_auth_handshake (rt:=ascii_runtime) (cfg:=sample_settings)
                s token_response session_response []
                [("token", VStr "tok")]
                [("session", VDict [("name", VStr "user"); ("key", VStr "sk9")])]
                [("name", VStr "user"); ("key", VStr "sk9")]
                (VStr "tok") (VStr "sk9") EmptyString []
                eq_refl eq_refl eq_refl eq_refl eq_refl eq_refl eq_refl eq_refl eq_refl)
    as (_ & Hkey & Hfile & _).
  exact (conj Hkey Hfile).
Defined.

Lemma ensure_auth_failure_keeps_credentials_witness :
  let s := fresh_state [] [] in
  let out := ensure_auth (rt:=ascii_runtime) (cfg:=sample_settings) s in
  out = (Raise ConnectionError, out.2)
  ∧ session_key out.2 = session_key s
  ∧ cred_file out.2 = cred_file s.
Proof.
  intros s out.
  assert (out = (Raise ConnectionError, out.2)) as Hrun by (vm_compute; reflexivity).
  split; [exact Hrun|].
  pose proof (ensure_auth_failure_keeps_credentials (rt:=ascii_runtime)
                (cfg:=sample_settings) s out.2 ConnectionError Hrun) as (Hkey & Hfile & _).
  exact (conj Hkey Hfile).
Defined.

Lemma scrobble_tracks_request_witness :
  let s := sample_state [] [] in
  ensure_auth (rt:=ascii_runtime) (cfg:=sample_settings) s = (Ok tt, s)
  ∧ length (signed (rt:=ascii_runtime) (cfg:=sample_settings)
              (batch_params (cfg:=sample_settings) (session_key s)
                 [sample_event; sample_event]))
    = 11%nat.
Proof.
  intros s. split; [reflexivity|].
  pose proof (scrobble_tracks_request (rt:=ascii_runtime) (cfg:=sample_settings)
                [sample_event; sample_event] s s eq_refl) as (_ & _ & _ & Hlen & _).
  exact Hlen.
Defined.

Lemma scrobble_track_request_witness :
  let s := sample_state [] [] in
  ensure_auth (rt:=ascii_runtime) (cfg:=sample_settings) s = (Ok tt, s)
  ∧ dict_get (signed (rt:=ascii_runtime) (cfg:=sample_settings)
                (track_params (cfg:=sample_settings) (session_key s) "Artist A" "Track B"
                   (clock s))) "timestamp"
    = Some (VStr (pretty (clock s))).
Proof.
  intros s. split; [reflexivity|].
  pose proof (scrobble_track_request (rt:=ascii_runtime) (cfg:=sample_settings)
                "Artist A" "Track B" (Some 0) s s eq_refl) as (_ & _ & _ & _ & Hts & _).
  exact Hts.
Defined.

Lemma batch_scrobble_pauses_witness :
  0 ≤ 120
  ∧ clock (batch_scrobble (rt:=ascii_runtime) (cfg:=sample_settings)
             "Artist A" "Track B" 120 None (sample_state [] [])).2
    = clock (sample_state [] []) + ceil_div 120 50.
Proof.
  assert (0 ≤ 120) as Hcount by lia.
  split; [exact Hcount|].
  exact (batch_scrobble_pauses (rt:=ascii_runtime) (cfg:=sample_settings)
           "Artist A" "Track B" 120 None (sample_state [] []) Hcount).
Defined.

Lemma batch_scrobble_nothing_to_do_witness :
  0 ≤ 0
  ∧ batch_scrobble (rt:=ascii_runtime) (cfg:=sample_settings)
      "Artist A" "Track B" 0 None (fresh_state [] [])
    = (Ok 0, fresh_state [] []).
Proof.
  assert (0 ≤ 0) as Hcount by lia.
  split; [exact Hcount|].
  exact (batch_scrobble_nothing_to_do (rt:=ascii_runtime) (cfg:=sample_settings)
           "Artist A" "Track B" 0 None (fresh_state [] []) Hcount).
Defined.

Lemma batch_scrobble_authenticated_witness :
  let s := sample_state [Ok (accepted_response 200 3)] ["pending"] in
  py_truthy (session_key s) = true
  ∧ stdin (batch_scrobble (rt:=ascii_runtime) (cfg:=sample_settings)
             "Artist A" "Track B" 3 None s).2
    = ["pending"].
Proof.
  intros s. split; [reflexivity|].
  pose proof (batch_scrobble_authenticated (rt:=ascii_runtime) (cfg:=sample_settings)
                "Artist A" "Track B" 3 None s eq_refl) as (_ & _ & Hin & _).
  exact Hin.
Defined.

Lemma main_loop_terminates_witness :
  (length (stdin (sample_state [] [])) < 1)%nat
  ∧ (main_loop (rt:=ascii_runtime) (cfg:=sample_settings) 1 (sample_state [] [])).1
    = Raise EOFError.
Proof.
  assert (length (stdin (sample_state [] [])) < 1)%nat as Hfuel by (cbn; lia).
  split; [exact Hfuel|].
  pose proof (main_loop_terminates (rt:=ascii_runtime) (cfg:=sample_settings)
                1 (sample_state [] []) Hfuel) as (_ & _ & Heof & _).
  exact (Heof eq_refl).
Defined.

(** a whole session: two jobs, then ['quit'] *)
Example main_loop_session :
  let out :=
    main_loop (rt:=ascii_runtime) (cfg:=sample_settings) 20
      (sample_state [Ok (accepted_response 200 2); Ok (accepted_response 200 1)]
         ["Artist A"; "Track B"; "2"; "n"; "Artist C"; "Track D"; "0"; "n"; "QUIT"]) in
  out.1 = Ok true
  ∧ stdin out.2 = []
  ∧ length (requests_of (trace out.2)) = 2%nat.
Proof. by vm_compute. Qed.
